(** * featureTracker: interval partitioning and visitor reconciliation

    A shallow embedding of [src/featureTracker.py].  The script validates a
    date range against a granularity, cuts it into day / week / month
    intervals, queries a metrics backend and reconciles the visitor counts
    it gets from independent queries by capping sums at an aggregate.

    Layout of the development:
    - [Outcome]: the result of running a piece of the script (a value, an
      uncaught exception, or [sys.exit(1)] after a message);
    - [Calendar]: the part of [datetime.date] the script uses;
    - [Tracker]: the script itself, section by section;
    - [Spec]: the notions the properties are stated with;
    - [Scenario]: two backends to run the script on;
    - the properties, calendar first. *)

From Stdlib Require Import ZArith List Bool Lia String Ascii QArith.
From Stdlib Require Import Sorting.Sorted Sorting.Permutation DecimalString.
Import ListNotations.

Local Open Scope Z_scope.

(* ------------------------------------------------------------------ *)
(** ** Outcomes of a run *)

(** What stops the script early.  [ValueError] and [OverflowError] are the
    exceptions [datetime] raises; nothing in the script catches them.  The
    other constructors are the script's own [print(...); sys.exit(1)]
    exits, named after the message printed. *)
Inductive exn : Type :=
| ValueError        (* date(y, m, d) with a field out of range *)
| OverflowError     (* date +/- timedelta leaving date.min .. date.max *)
| InputError        (* "End date must be on or after start date." *)
| AlignmentError    (* the two messages of validate_interval_alignment *)
| MetricsQueryError. (* get_json on a status other than 200 *)

(** [Diverged] is the loop bound of the embedding being hit; the totality
    lemmas below show that no run reaches it. *)
Inductive outcome (A : Type) : Type :=
| Return (a : A)
| Raise (e : exn)
| Diverged.

Arguments Return {A} a.
Arguments Raise {A} e.
Arguments Diverged {A}.

Definition bind {A B : Type} (c : outcome A) (k : A -> outcome B) : outcome B :=
  match c with
  | Return a => k a
  | Raise e => Raise e
  | Diverged => Diverged
  end.

Declare Scope outcome_scope.
Delimit Scope outcome_scope with outcome.
Notation "x <- c ;; k" := (bind c (fun x => k))
  (at level 61, c at next level, right associativity) : outcome_scope.
Notation "c ;;; k" := (bind c (fun _ => k))
  (at level 61, right associativity) : outcome_scope.
Local Open Scope outcome_scope.

(* ------------------------------------------------------------------ *)
(** ** Calendar: the proleptic Gregorian dates of [datetime.date] *)

Module Calendar.

(** A [date] object holds its three fields; [date_new] is the checked
    constructor [date(y, m, d)]. *)
Record date : Type := mkdate { year : Z; month : Z; day : Z }.

Definition MINYEAR : Z := 1.
Definition MAXYEAR : Z := 9999.
Definition MAXORDINAL : Z := 3652059.  (* date(9999, 12, 31).toordinal() *)

Definition is_leap (y : Z) : bool :=
  (y mod 4 =? 0) && (negb (y mod 100 =? 0) || (y mod 400 =? 0)).

Definition DAYS_IN_MONTH (m : Z) : Z :=
  match m with
  | 1 => 31 | 2 => 28 | 3 => 31 | 4 => 30 | 5 => 31 | 6 => 30
  | 7 => 31 | 8 => 31 | 9 => 30 | 10 => 31 | 11 => 30 | 12 => 31
  | _ => -1
  end.

Definition DAYS_BEFORE_MONTH (m : Z) : Z :=
  match m with
  | 1 => 0 | 2 => 31 | 3 => 59 | 4 => 90 | 5 => 120 | 6 => 151
  | 7 => 181 | 8 => 212 | 9 => 243 | 10 => 273 | 11 => 304 | 12 => 334
  | _ => -1
  end.

Definition days_before_year (y : Z) : Z :=
  let p := y - 1 in p * 365 + p / 4 - p / 100 + p / 400.

Definition days_in_month (y m : Z) : Z :=
  if (m =? 2) && is_leap y then 29 else DAYS_IN_MONTH m.

Definition days_before_month (y m : Z) : Z :=
  DAYS_BEFORE_MONTH m + (if (2 <? m) && is_leap y then 1 else 0).

Definition ymd2ord (y m d : Z) : Z :=
  days_before_year y + days_before_month y m + d.

Definition DI400Y : Z := 146097.
Definition DI100Y : Z := 36524.
Definition DI4Y : Z := 1461.

(** [_ord2ymd] of the pure-Python [datetime]: the year from the 400-, 100-,
    4- and 1-year cycles, then the month by an estimate that is corrected
    downwards once. *)
Definition ord2ymd (n0 : Z) : date :=
  let n := n0 - 1 in
  let n400 := n / DI400Y in
  let n := n mod DI400Y in
  let n100 := n / DI100Y in
  let n := n mod DI100Y in
  let n4 := n / DI4Y in
  let n := n mod DI4Y in
  let n1 := n / 365 in
  let n := n mod 365 in
  let y := n400 * 400 + 1 + n100 * 100 + n4 * 4 + n1 in
  if (n1 =? 4) || (n100 =? 4) then mkdate (y - 1) 12 31
  else
    let leapyear := (n1 =? 3) && (negb (n4 =? 24) || (n100 =? 3)) in
    let m := Z.shiftr (n + 50) 5 in
    let preceding :=
      DAYS_BEFORE_MONTH m + (if (2 <? m) && leapyear then 1 else 0) in
    if n <? preceding then
      let m' := m - 1 in
      let preceding' :=
        preceding - (DAYS_IN_MONTH m' + (if (m' =? 2) && leapyear then 1 else 0)) in
      mkdate y m' (n - preceding' + 1)
    else mkdate y m (n - preceding + 1).

(** [date(y, m, d)]: [_check_date_fields] raises [ValueError] on a year
    outside 1..9999, a month outside 1..12 or a day outside the month. *)
Definition date_new (y m d : Z) : outcome date :=
  if negb ((MINYEAR <=? y) && (y <=? MAXYEAR)) then Raise ValueError
  else if negb ((1 <=? m) && (m <=? 12)) then Raise ValueError
  else if negb ((1 <=? d) && (d <=? days_in_month y m)) then Raise ValueError
  else Return (mkdate y m d).

Definition toordinal (d : date) : Z := ymd2ord (year d) (month d) (day d).

(** [d + timedelta(days=k)] ([k] may be negative): through the ordinal,
    [OverflowError] outside 1..MAXORDINAL. *)
Definition add_days (d : date) (k : Z) : outcome date :=
  let o := toordinal d + k in
  if (0 <? o) && (o <=? MAXORDINAL) then Return (ord2ymd o)
  else Raise OverflowError.

(** [d.weekday()]: Monday is 0, Sunday is 6. *)
Definition weekday (d : date) : Z := (toordinal d + 6) mod 7.

(** Comparison of dates is comparison of the [(year, month, day)] triples. *)
Definition date_compare (a b : date) : comparison :=
  match year a ?= year b with
  | Eq => match month a ?= month b with
          | Eq => day a ?= day b
          | c => c
          end
  | c => c
  end.

Definition date_ltb (a b : date) : bool :=
  match date_compare a b with Lt => true | _ => false end.
Definition date_leb (a b : date) : bool :=
  match date_compare a b with Gt => false | _ => true end.
Definition date_eqb (a b : date) : bool :=
  match date_compare a b with Eq => true | _ => false end.

(** The dates a [date] object can hold. *)
Definition valid_date (d : date) : Prop :=
  MINYEAR <= year d <= MAXYEAR /\ 1 <= month d <= 12 /\
  1 <= day d <= days_in_month (year d) (month d).

Definition valid_dateb (d : date) : bool :=
  (MINYEAR <=? year d) && (year d <=? MAXYEAR) &&
  (1 <=? month d) && (month d <=? 12) &&
  (1 <=? day d) && (day d <=? days_in_month (year d) (month d)).

End Calendar.

Import Calendar.

(* ------------------------------------------------------------------ *)
(** ** The script *)

Module Tracker.

(** The first command-line argument: ["day"], ["week"] or ["month"]. *)
Inductive granularity : Type := Day | Week | Month.

(** *** Helpers *)

(** [add_one_month(d)].  The last day of the target month is read off
    [date(year, month+1, 1) - timedelta(days=1)], where [month] is the
    month already advanced. *)
Definition add_one_month (d : date) : outcome date :=
  let '(y, m) :=
    if month d =? 12 then (year d + 1, 1) else (year d, month d + 1) in
  first <- date_new y (m + 1) 1 ;;
  last <- add_days first (-1) ;;
  date_new y m (Z.min (day d) (day last)).

(** A bound on the number of tests a [while current <(=) end_date] loop can
    make when every round moves [current] forward by at least one day. *)
Definition loop_bound (start_date end_date : date) : nat :=
  S (S (Z.to_nat (toordinal end_date - toordinal start_date))).

(** The [while current < end_date] loop of the month check. *)
Fixpoint advance_months (fuel : nat) (current end_date : date) : outcome date :=
  match fuel with
  | O => Diverged
  | S fuel' =>
      if date_ltb current end_date then
        next <- add_one_month current ;;
        advance_months fuel' next end_date
      else Return current
  end.

(** [validate_interval_alignment(interval, start_date, end_date)]. *)
Definition validate_interval_alignment
    (interval : granularity) (start_date end_date : date) : outcome unit :=
  match interval with
  | Week =>
      if negb (weekday start_date =? 6) || negb (weekday end_date =? 5)
      then Raise AlignmentError
      else Return tt
  | Month =>
      current <- advance_months (loop_bound start_date end_date)
                   start_date end_date ;;
      limit <- add_days end_date 1 ;;
      if negb (date_eqb current limit) then Raise AlignmentError
      else Return tt
  | Day => Return tt
  end.

(** *** Building the list of intervals (Section 3 of the script) *)

Definition window : Type := (date * date)%type.

Fixpoint day_intervals (fuel : nat) (current end_date : date)
    (intervals : list window) : outcome (list window) :=
  match fuel with
  | O => Diverged
  | S fuel' =>
      if date_leb current end_date then
        next <- add_days current 1 ;;
        day_intervals fuel' next end_date (intervals ++ [(current, current)])
      else Return intervals
  end.

Fixpoint week_intervals (fuel : nat) (current end_date : date)
    (intervals : list window) : outcome (list window) :=
  match fuel with
  | O => Diverged
  | S fuel' =>
      if date_leb current end_date then
        interval_end <- add_days current 6 ;;
        next <- add_days current 7 ;;
        week_intervals fuel' next end_date
          (intervals ++ [(current, interval_end)])
      else Return intervals
  end.

Fixpoint month_intervals (fuel : nat) (current end_date : date)
    (intervals : list window) : outcome (list window) :=
  match fuel with
  | O => Diverged
  | S fuel' =>
      if date_leb current end_date then
        next_month <- add_one_month current ;;
        interval_end <- add_days next_month (-1) ;;
        month_intervals fuel' next_month end_date
          (intervals ++ [(current, interval_end)])
      else Return intervals
  end.

Definition build_intervals
    (interval : granularity) (start_date end_date : date)
  : outcome (list window) :=
  let fuel := loop_bound start_date end_date in
  match interval with
  | Day => day_intervals fuel start_date end_date []
  | Week => week_intervals fuel start_date end_date []
  | Month => month_intervals fuel start_date end_date []
  end.

(** *** The same construction, written out again in Section 6 *)

Fixpoint day_intervals6 (fuel : nat) (current end_date : date)
    (intervals : list window) : outcome (list window) :=
  match fuel with
  | S fuel' =>
      if date_leb current end_date then
        next <- add_days current 1 ;;
        day_intervals6 fuel' next end_date (intervals ++ [(current, current)])
      else Return intervals
  | O => Diverged
  end.

Fixpoint week_intervals6 (fuel : nat) (current end_date : date)
    (intervals : list window) : outcome (list window) :=
  match fuel with
  | S fuel' =>
      if date_leb current end_date then
        interval_end <- add_days current 6 ;;
        next <- add_days current 7 ;;
        week_intervals6 fuel' next end_date
          (intervals ++ [(current, interval_end)])
      else Return intervals
  | O => Diverged
  end.

Fixpoint month_intervals6 (fuel : nat) (current end_date : date)
    (intervals : list window) : outcome (list window) :=
  match fuel with
  | S fuel' =>
      if date_leb current end_date then
        next_month <- add_one_month current ;;
        interval_end <- add_days next_month (-1) ;;
        month_intervals6 fuel' next_month end_date
          (intervals ++ [(current, interval_end)])
      else Return intervals
  | O => Diverged
  end.

Definition build_intervals6
    (interval : granularity) (start_date end_date : date)
  : outcome (list window) :=
  let fuel := loop_bound start_date end_date in
  match interval with
  | Day => day_intervals6 fuel start_date end_date []
  | Week => week_intervals6 fuel start_date end_date []
  | Month => month_intervals6 fuel start_date end_date []
  end.

(** *** Responses of the metrics backend *)

Inductive metric : Type := Visitors | Events.

(** One entry of a breakdown response.  The goal name is looked up under
    three keys; a key that is absent reads as [None]. *)
Record item : Type := mkitem {
  item_goal : option string;        (* item.get("goal") *)
  item_event_goal : option string;  (* item.get("event:goal") *)
  item_name : option string;        (* item.get("name") *)
  item_visitors : option Z;         (* item.get("visitors", 0) *)
  item_events : option Z            (* item.get("events", 0) *)
}.

(** Python's truth value of a name: [None] and the empty string are false. *)
Definition truthy (v : option string) : bool :=
  match v with
  | Some s => negb (String.eqb s EmptyString)
  | None => false
  end.

(** [a or b]. *)
Definition py_or (a b : option string) : option string :=
  if truthy a then a else b.

(** [item.get("goal") or item.get("event:goal") or item.get("name")]. *)
Definition goal_of (it : item) : option string :=
  py_or (item_goal it) (py_or (item_event_goal it) (item_name it)).

(** [goal in goals]. *)
Definition goal_in (goal : option string) (goals : list string) : bool :=
  match goal with
  | Some g => existsb (String.eqb g) goals
  | None => false
  end.

(** [d.get(key, default)] on a key that holds an integer. *)
Definition get_default (v : option Z) (default : Z) : Z :=
  match v with
  | Some x => x
  | None => default
  end.

(** [goal_visitor_map[goal] = count] on a dict kept in insertion order: an
    existing key keeps its place, a new key goes last. *)
Fixpoint dict_set (m : list (string * Z)) (k : string) (v : Z)
  : list (string * Z) :=
  match m with
  | [] => [(k, v)]
  | (k', v') :: rest =>
      if String.eqb k' k then (k', v) :: rest
      else (k', v') :: dict_set rest k v
  end.

(** *** Loop bodies *)

(** Section 1: the body of [for item in data.get("results", [])]; the state
    is [(total_goal_visitors, goal_visitor_map)]. *)
Definition count_goal_visitors (goals : list string)
    (st : Z * list (string * Z)) (it : item) : Z * list (string * Z) :=
  let goal := goal_of it in
  if goal_in goal goals then
    match goal with
    | Some g =>
        let count := get_default (item_visitors it) 0 in
        (fst st + count, dict_set (snd st) g count)
    | None => st
    end
  else st.

(** Section 2: [total_events += item.get("events", 0)]. *)
Definition count_events (goals : list string) (total_events : Z) (it : item) : Z :=
  if goal_in (goal_of it) goals
  then total_events + get_default (item_events it) 0
  else total_events.

(** Section 3: the state is [(visitors, events)]. *)
Definition count_interval (goals : list string) (st : Z * Z) (it : item) : Z * Z :=
  if goal_in (goal_of it) goals
  then (fst st + get_default (item_visitors it) 0,
        snd st + get_default (item_events it) 0)
  else st.

(** Section 6: [conversion_visitors += item.get("visitors", 0)]. *)
Definition count_conversions (goals : list string) (conversion_visitors : Z)
    (it : item) : Z :=
  if goal_in (goal_of it) goals
  then conversion_visitors + get_default (item_visitors it) 0
  else conversion_visitors.

(** *** Rates and their rendering *)

(** [(count / total * 100) if total > 0 else 0].  The quotient is kept as
    an exact rational. *)
Definition percent (count total : Z) : Q :=
  if 0 <? total then (inject_Z count / inject_Z total * 100)%Q else 0%Q.

Definition round_half_even (q : Q) : Z :=
  let n := Qnum q in
  let d := Z.pos (Qden q) in
  let fl := n / d in
  let twice := 2 * (n mod d) in
  if twice <? d then fl
  else if d <? twice then fl + 1
  else if Z.even fl then fl else fl + 1.

(** [str(n)] for an integer. *)
Definition str (n : Z) : string := NilZero.string_of_int (Z.to_int n).

Definition two_digits (n : Z) : string :=
  ((if (n <? 10)%Z then "0" else "") ++ str n)%string.

(** [f"{q:.2f}"]. *)
Definition format_2f (q : Q) : string :=
  let c := Z.abs (round_half_even (q * 100)%Q) in
  ((if (Qnum q <? 0)%Z then "-" else "") ++
   str (c / 100)%Z ++ "." ++ two_digits (c mod 100)%Z)%string.

(** [f"{rate:.2f}%"], the line of Sections 5 and 6. *)
Definition render_rate (q : Q) : string := (format_2f q ++ "%")%string.

(** [f"{percentage:.2f}% ({count})  {goal}"], the line of Section 4. *)
Definition render_goal_line (row : Q * Z * string) : string :=
  let '(percentage, count, goal) := row in
  (format_2f percentage ++ "% (" ++ str count ++ ")  " ++ goal)%string.

(** *** Sorting the goals *)

(** [sorted(items, key=lambda x: x[1], reverse=True)]: a stable sort, so
    entries with equal counts keep the order of the dict.  An entry is put
    in front of the first entry that is not strictly larger. *)
Fixpoint insert_desc (x : string * Z) (l : list (string * Z))
  : list (string * Z) :=
  match l with
  | [] => [x]
  | y :: rest =>
      if snd x <? snd y then y :: insert_desc x rest else x :: l
  end.

Definition sorted_desc (l : list (string * Z)) : list (string * Z) :=
  fold_right insert_desc [] l.

(** Section 4 from the dict and the total of Section 1. *)
Definition section4 (goal_visitor_map : list (string * Z))
    (total_goal_visitors : Z) : list (Q * Z * string) :=
  map (fun gc : string * Z =>
         (percent (snd gc) total_goal_visitors, snd gc, fst gc))
      (sorted_desc goal_visitor_map).

(** *** The run *)

(** What one run computes, section by section.  Sections 5 and 6 print
    only the rate; the counts it is made of are kept next to it. *)
Record report : Type := mkreport {
  total_goal_visitors : Z;                 (* Sections 1 and 2 *)
  goal_visitor_map : list (string * Z);
  total_events : Z;                        (* Section 2 *)
  interval_lines : list (Z * Z);           (* Section 3: events, visitors *)
  goal_lines : list (Q * Z * string);      (* Section 4 *)
  conversion : Z * Z * Q;                  (* Section 5: conversions, page visitors, rate *)
  interval_rates : list (Z * Z * Q)        (* Section 6, the same per interval *)
}.

Section Run.

(** The backend behind [get_json], by query shape.  [breakdown w ms page]
    is the [results] list of a breakdown by goal over window [w] for the
    metrics [ms], filtered to [page] when given; [aggregate w goal page]
    is [results.visitors.value] of an aggregate query with the given goal
    and page filters.  A status other than 200 is [Raise MetricsQueryError].
    One run sees one backend: equal queries get equal answers. *)
Variable breakdown :
  window -> list metric -> option string -> outcome (list item).
Variable aggregate :
  window -> option string -> option string -> outcome (option Z).

Variable interval : granularity.
Variables start_date end_date : date.
Variable page_path : string.
Variable goals : list string.

Definition section1 : outcome (Z * list (string * Z)) :=
  data <- breakdown (start_date, end_date) [Visitors] None ;;
  let st := fold_left (count_goal_visitors goals) data (0, []) in
  site_data <- aggregate (start_date, end_date) None None ;;
  let site_total_visitors := get_default site_data 0 in
  Return (Z.min (fst st) site_total_visitors, snd st).

Definition section2 : outcome Z :=
  events_data <- breakdown (start_date, end_date) [Events] None ;;
  Return (fold_left (count_events goals) events_data 0).

(** [for start, end in intervals] of Section 3. *)
Fixpoint section3_loop (intervals : list window) (total_goal_visitors : Z)
    (lines : list (Z * Z)) : outcome (list (Z * Z)) :=
  match intervals with
  | [] => Return lines
  | w :: rest =>
      data <- breakdown w [Visitors; Events] None ;;
      let st := fold_left (count_interval goals) data (0, 0) in
      let visitors := Z.min (fst st) total_goal_visitors in
      section3_loop rest total_goal_visitors (lines ++ [(snd st, visitors)])
  end.

Definition section3 (total_goal_visitors : Z) : outcome (list (Z * Z)) :=
  intervals <- build_intervals interval start_date end_date ;;
  section3_loop intervals total_goal_visitors [].

(** [for goal in goals] of Section 5. *)
Fixpoint conversion_loop (gs : list string) (conversion_visitors : Z)
  : outcome Z :=
  match gs with
  | [] => Return conversion_visitors
  | goal :: rest =>
      goal_data <-
        aggregate (start_date, end_date) (Some goal) (Some page_path) ;;
      conversion_loop rest (conversion_visitors + get_default goal_data 0)
  end.

Definition section5 : outcome (Z * Z * Q) :=
  home_data <- aggregate (start_date, end_date) None (Some page_path) ;;
  let home_visitors := get_default home_data 0 in
  summed <- conversion_loop goals 0 ;;
  let conversion_visitors := Z.min summed home_visitors in
  Return (conversion_visitors, home_visitors,
          percent conversion_visitors home_visitors).

(** [for start, end in intervals] of Section 6. *)
Fixpoint section6_loop (intervals : list window)
    (line : list (Z * Z * Q)) : outcome (list (Z * Z * Q)) :=
  match intervals with
  | [] => Return line
  | w :: rest =>
      home_data <- aggregate w None (Some page_path) ;;
      let home_visitors := get_default home_data 0 in
      goal_page_data <- breakdown w [Visitors] (Some page_path) ;;
      let summed := fold_left (count_conversions goals) goal_page_data 0 in
      let conversion_visitors := Z.min summed home_visitors in
      section6_loop rest
        (line ++ [(conversion_visitors, home_visitors,
                   percent conversion_visitors home_visitors)])
  end.

Definition section6 : outcome (list (Z * Z * Q)) :=
  intervals <- build_intervals6 interval start_date end_date ;;
  section6_loop intervals [].

(** The script from the parsed arguments on. *)
Definition main : outcome report :=
  (if date_ltb end_date start_date then Raise InputError else Return tt) ;;;
  validate_interval_alignment interval start_date end_date ;;;
  s1 <- section1 ;;
  events <- section2 ;;
  lines3 <- section3 (fst s1) ;;
  let lines4 := section4 (snd s1) (fst s1) in
  s5 <- section5 ;;
  lines6 <- section6 ;;
  Return (mkreport (fst s1) (snd s1) events lines3 lines4 s5 lines6).

End Run.

End Tracker.

Import Tracker.
(* ------------------------------------------------------------------ *)
(** ** Notions the properties are stated with *)

Module Spec.

Definition days_in_year (y : Z) : Z := if is_leap y then 366 else 365.

(** Month and day from the 0-based day of the year, as the tail of
    [ord2ymd] computes them, and the check that they are right. *)
Definition md_of_doy (leap : bool) (n : Z) : Z * Z :=
  let m := Z.shiftr (n + 50) 5 in
  let preceding := DAYS_BEFORE_MONTH m + (if (2 <? m) && leap then 1 else 0) in
  if n <? preceding then
    let m' := m - 1 in
    let preceding' :=
      preceding - (DAYS_IN_MONTH m' + (if (m' =? 2) && leap then 1 else 0)) in
    (m', n - preceding' + 1)
  else (m, n - preceding + 1).

Definition md_ok (leap : bool) (n : Z) : bool :=
  let '(m, d) := md_of_doy leap n in
  (1 <=? m) && (m <=? 12) && (1 <=? d) &&
  (d <=? (if (m =? 2) && leap then 29 else DAYS_IN_MONTH m)) &&
  (DAYS_BEFORE_MONTH m + (if (2 <? m) && leap then 1 else 0) + d =? n + 1).

(** The month after [(y, m)]. *)
Definition next_ym (y m : Z) : Z * Z :=
  if m =? 12 then (y + 1, 1) else (y, m + 1).

(** The same day of the next month, clamped to the length of that month:
    what adding one calendar month means. *)
Definition next_month_date (d : date) : date :=
  let '(y, m) := next_ym (year d) (month d) in
  mkdate y m (Z.min (day d) (days_in_month y m)).

(** The last date a [date] object can hold. *)
Definition date_max : date := mkdate 9999 12 31.

(** An entry counts when its goal is one of the requested goals. *)
Definition matches (goals : list string) (it : item) : bool :=
  goal_in (goal_of it) goals.

Definition visitors_of (it : item) : Z := get_default (item_visitors it) 0.
Definition events_of (it : item) : Z := get_default (item_events it) 0.

Definition zsum (l : list Z) : Z := fold_right Z.add 0 l.

(** The plain sums over the requested goals of a breakdown response. *)
Definition sum_visitors (goals : list string) (items : list item) : Z :=
  zsum (map visitors_of (filter (matches goals) items)).

Definition sum_events (goals : list string) (items : list item) : Z :=
  zsum (map events_of (filter (matches goals) items)).

(** [x] is the sum capped at the ceiling. *)
Definition capped (sum ceiling x : Z) : Prop :=
  x = Z.min sum ceiling /\ x <= ceiling.

(** Each interval starts on the day after the one before it ends. *)
Fixpoint adjacent (l : list window) : Prop :=
  match l with
  | w1 :: ((w2 :: _) as rest) =>
      add_days (snd w1) 1 = Return (fst w2) /\ adjacent rest
  | _ => True
  end.

(** [l] cuts [start_date .. end_date] into consecutive intervals. *)
Definition partition_of (start_date end_date : date) (l : list window) : Prop :=
  (exists w rest, l = w :: rest /\ fst w = start_date) /\
  (exists front w, l = front ++ [w] /\ snd w = end_date) /\
  adjacent l /\
  Forall (fun w => date_leb (fst w) (snd w) = true) l.

(** The same on ordinals, for the loop invariants: [l] tiles the days
    [from .. upto], and is empty exactly when [from] is the day after. *)
Fixpoint tiles (from : Z) (l : list window) (upto : Z) : Prop :=
  match l with
  | [] => from = upto + 1
  | w :: rest =>
      valid_date (fst w) /\ valid_date (snd w) /\
      toordinal (fst w) = from /\ from <= toordinal (snd w) /\
      tiles (toordinal (snd w) + 1) rest upto
  end.

(** The order of Section 4: [a] may stand before [b]. *)
Definition count_desc (a b : string * Z) : Prop := snd b <= snd a.

End Spec.

Import Spec.

(* ------------------------------------------------------------------ *)
(** ** Scenarios *)

Module Scenario.

Local Open Scope string_scope.

(** One goal, [signup], with 10 visitors and 12 events in every window,
    and 9 visitors in every aggregate. *)
Definition signup_breakdown
    (w : window) (ms : list metric) (page : option string)
  : outcome (list item) :=
  Return [mkitem (Some "signup") None None (Some 10) (Some 12);
          mkitem None (Some "pageview") None (Some 40) (Some 90)].

Definition signup_aggregate
    (w : window) (goal page : option string) : outcome (option Z) :=
  Return (Some 9).

Definition signup_report : report :=
  mkreport 9 [("signup", 10)] 12 [(12, 9); (12, 9)]
    [((1000 # 9)%Q, 10, "signup")]
    (9, 9, (900 # 9)%Q) [(9, 9, (900 # 9)%Q); (9, 9, (900 # 9)%Q)].

(** Two goals whose breakdown counts add up to 150 on a site with 120
    visitors. *)
Definition overlap_breakdown
    (w : window) (ms : list metric) (page : option string)
  : outcome (list item) :=
  Return [mkitem (Some "A") None None (Some 100) (Some 300);
          mkitem None None (Some "B") (Some 50) (Some 60)].

Definition overlap_aggregate
    (w : window) (goal page : option string) : outcome (option Z) :=
  Return (Some 120).

Definition overlap_report : report :=
  mkreport 120 [("A", 100); ("B", 50)] 360 [(360, 120)]
    [((10000 # 120)%Q, 100, "A"); ((5000 # 120)%Q, 50, "B")]
    (120, 120, (12000 # 120)%Q) [(120, 120, (12000 # 120)%Q)].

End Scenario.

Import Scenario.

(* ------------------------------------------------------------------ *)
(** ** The command line and the pieces around the claims *)

Module Cli.

(** [g.replace('+', ' ')]: every occurrence is replaced.  Both characters
    are ASCII, so working on the bytes of the string is working on its
    characters. *)
Fixpoint replace_char (old new : ascii) (s : string) : string :=
  match s with
  | EmptyString => EmptyString
  | String c rest =>
      String (if Ascii.eqb c old then new else c) (replace_char old new rest)
  end.

(** [goals = [g.replace('+', ' ') for g in args.goals]]. *)
Definition normalize_goals (args_goals : list string) : list string :=
  map (replace_char "+"%char " "%char) args_goals.

End Cli.

Import Cli.

Module Notions.

(** [c] occurs in [s]. *)
Fixpoint occurs (c : ascii) (s : string) : bool :=
  match s with
  | EmptyString => false
  | String c' rest => Ascii.eqb c' c || occurs c rest
  end.

(** [goal_visitor_map.get(k)]. *)
Fixpoint dict_get (m : list (string * Z)) (k : string) : option Z :=
  match m with
  | [] => None
  | (k', v) :: rest => if String.eqb k' k then Some v else dict_get rest k
  end.

(** The goal-visitor map Section 1 leaves behind. *)
Definition goal_map_of (goals : list string) (items : list item)
  : list (string * Z) :=
  snd (fold_left (count_goal_visitors goals) items (0, [])).

(** The entry of a response that names goal [g]. *)
Definition names (g : string) (it : item) : bool :=
  match goal_of it with
  | Some g' => String.eqb g' g
  | None => false
  end.

(** The visitors of the last entry of the response that names [g]. *)
Definition last_visitors (g : string) (items : list item) : option Z :=
  option_map visitors_of (find (names g) (rev items)).

(** The requested entries of a response as [(goal, visitors)] pairs, in
    the order of the response. *)
Fixpoint requested (goals : list string) (items : list item)
  : list (string * Z) :=
  match items with
  | [] => []
  | it :: rest =>
      match goal_of it with
      | Some g =>
          if goal_in (Some g) goals
          then (g, visitors_of it) :: requested goals rest
          else requested goals rest
      | None => requested goals rest
      end
  end.

(** [k] single-day windows from ordinal [from] on, and [k] seven-day
    windows. *)
Definition day_windows (from : Z) (k : nat) : list window :=
  map (fun i => let d := ord2ymd (from + Z.of_nat i) in (d, d)) (seq 0 k).

Definition week_windows (from : Z) (k : nat) : list window :=
  map (fun i => (ord2ymd (from + 7 * Z.of_nat i),
                 ord2ymd (from + 7 * Z.of_nat i + 6))) (seq 0 k).

(** [add_one_month] applied [k] times. *)
Fixpoint months_later (k : nat) (d : date) : outcome date :=
  match k with
  | O => Return d
  | S k' => next <- add_one_month d ;; months_later k' next
  end.

(** The last day of the month of [d]. *)
Definition month_end (d : date) : date :=
  mkdate (year d) (month d) (days_in_month (year d) (month d)).

End Notions.

Import Notions.

(* ------------------------------------------------------------------ *)
(** ** The outcome monad *)

Lemma bind_Return_inv {A B : Type} (c : outcome A) (k : A -> outcome B) (b : B) :
  bind c k = Return b -> exists a, c = Return a /\ k a = Return b.
Proof.
  destruct c as [a | e | ]; simpl; intros H; try discriminate.
  exists a; split; [reflexivity | exact H].
Qed.

Lemma bind_Diverged_inv {A B : Type} (c : outcome A) (k : A -> outcome B) :
  bind c k = Diverged -> c = Diverged \/ exists a, c = Return a /\ k a = Diverged.
Proof.
  destruct c as [a | e | ]; simpl; intros H; try discriminate.
  - right. exists a. split; [reflexivity | exact H].
  - left. reflexivity.
Qed.

(* ------------------------------------------------------------------ *)
(** ** The calendar *)

Lemma is_leap_spec (y : Z) :
  is_leap y = true <-> (y mod 4 = 0 /\ (y mod 100 <> 0 \/ y mod 400 = 0)).
Proof.
  unfold is_leap.
  rewrite andb_true_iff, orb_true_iff, negb_true_iff, !Z.eqb_eq, Z.eqb_neq.
  tauto.
Qed.

Lemma days_before_year_succ (y : Z) :
  days_before_year (y + 1) = days_before_year y + days_in_year y.
Proof.
  unfold days_before_year, days_in_year.
  destruct (is_leap y) eqn:E.
  - apply is_leap_spec in E.
    replace (y + 1 - 1) with y by lia.
    Z.div_mod_to_equations. lia.
  - assert (~ (y mod 4 = 0 /\ (y mod 100 <> 0 \/ y mod 400 = 0))) as N.
    { rewrite <- is_leap_spec, E. discriminate. }
    replace (y + 1 - 1) with y by lia.
    Z.div_mod_to_equations. lia.
Qed.

Lemma days_before_year_cycles (a b c e : Z) :
  0 <= b <= 3 -> 0 <= c <= 24 -> 0 <= e <= 3 ->
  days_before_year (400 * a + 100 * b + 4 * c + e + 1) =
  146097 * a + 36524 * b + 1461 * c + 365 * e.
Proof.
  intros Hb Hc He. unfold days_before_year.
  replace (400 * a + 100 * b + 4 * c + e + 1 - 1) with (400 * a + 100 * b + 4 * c + e) by lia.
  Z.div_mod_to_equations. lia.
Qed.



Lemma forallb_range (P : Z -> bool) (k : nat) :
  forallb P (map Z.of_nat (seq 0 k)) = true ->
  forall n, 0 <= n < Z.of_nat k -> P n = true.
Proof.
  intros H n Hn. rewrite forallb_forall in H. apply H.
  rewrite <- (Z2Nat.id n) by lia. apply in_map, in_seq. lia.
Qed.

Lemma md_of_doy_ok (leap : bool) (n : Z) :
  0 <= n < (if leap then 366 else 365) -> md_ok leap n = true.
Proof.
  destruct leap; intros Hn.
  - apply (forallb_range (md_ok true) 366); [vm_compute; reflexivity | lia].
  - apply (forallb_range (md_ok false) 365); [vm_compute; reflexivity | lia].
Qed.

Lemma ord2ymd_spec (n : Z) :
  1 <= n ->
  let d := ord2ymd n in
  1 <= year d /\ 1 <= month d <= 12 /\
  1 <= day d <= days_in_month (year d) (month d) /\
  toordinal d = n.
Proof.
  intros Hn.
  unfold ord2ymd, DI400Y, DI100Y, DI4Y.
  set (n400 := (n - 1) / 146097).
  set (r400 := (n - 1) mod 146097).
  set (n100 := r400 / 36524).
  set (r100 := r400 mod 36524).
  set (n4 := r100 / 1461).
  set (r4 := r100 mod 1461).
  set (n1 := r4 / 365).
  set (r1 := r4 mod 365).
  assert (H400 : n - 1 = 146097 * n400 + r400 /\ 0 <= r400 < 146097)
    by (subst n400 r400; split; [apply Z.div_mod | apply Z.mod_pos_bound]; lia).
  assert (H100 : r400 = 36524 * n100 + r100 /\ 0 <= r100 < 36524)
    by (subst n100 r100; split; [apply Z.div_mod | apply Z.mod_pos_bound]; lia).
  assert (H4 : r100 = 1461 * n4 + r4 /\ 0 <= r4 < 1461)
    by (subst n4 r4; split; [apply Z.div_mod | apply Z.mod_pos_bound]; lia).
  assert (H1 : r4 = 365 * n1 + r1 /\ 0 <= r1 < 365)
    by (subst n1 r1; split; [apply Z.div_mod | apply Z.mod_pos_bound]; lia).
  clearbody n400 r400 n100 r100 n4 r4 n1 r1.
  assert (0 <= n400) by lia.
  assert (0 <= n100 <= 4) by lia.
  assert (0 <= n4 <= 24) by lia.
  assert (0 <= n1 <= 4) by lia.
  destruct ((n1 =? 4) || (n100 =? 4)) eqn:Especial.
  - (* last day of a leap year *)
    cbn [year month day]. unfold toordinal; cbn [year month day].
    apply orb_true_iff in Especial. rewrite !Z.eqb_eq in Especial.
    set (Y := n400 * 400 + 1 + n100 * 100 + n4 * 4 + n1 - 1).
    assert (HY : Y + 1 = 400 * n400 + 100 * n100 + 4 * n4 + n1 + 1) by (subst Y; lia).
    assert (Hleap : is_leap Y = true).
    { apply is_leap_spec. subst Y. destruct Especial as [E | E].
      - subst n1. split; [Z.div_mod_to_equations; lia |].
        left. Z.div_mod_to_equations. lia.
      - subst n100. assert (n4 = 0 /\ n1 = 0) as [-> ->] by lia.
        split; [Z.div_mod_to_equations; lia |].
        right. Z.div_mod_to_equations. lia. }
    assert (Hd : days_before_year (Y + 1) = n + 0).
    { rewrite HY. destruct Especial as [E | E].
      - subst n1.
        replace (400 * n400 + 100 * n100 + 4 * n4 + 4 + 1)
          with (400 * n400 + 100 * n100 + 4 * (n4 + 1) + 0 + 1) by lia.
        destruct (Z.eq_dec n4 24) as [-> | ].
        + lia.
        + destruct (Z.eq_dec n100 4) as [-> | ]; [lia |].
          rewrite days_before_year_cycles by lia. lia.
      - subst n100. assert (n4 = 0 /\ n1 = 0) as [-> ->] by lia.
        replace (400 * n400 + 100 * 4 + 4 * 0 + 0 + 1)
          with (400 * (n400 + 1) + 100 * 0 + 4 * 0 + 0 + 1) by lia.
        rewrite days_before_year_cycles by lia. lia. }
    rewrite days_before_year_succ in Hd. unfold days_in_year in Hd.
    rewrite Hleap in Hd.
    unfold days_in_month, ymd2ord, days_before_month. rewrite Hleap.
    cbn. lia.
  - apply orb_false_iff in Especial. rewrite !Z.eqb_neq in Especial.
    set (Y := n400 * 400 + 1 + n100 * 100 + n4 * 4 + n1).
    set (leap := (n1 =? 3) && (negb (n4 =? 24) || (n100 =? 3))).
    assert (HY : Y = 400 * n400 + 100 * n100 + 4 * n4 + n1 + 1) by (subst Y; lia).
    assert (Hdby : days_before_year Y = n - 1 - r1).
    { rewrite HY, days_before_year_cycles by lia. lia. }
    assert (Hleap : is_leap Y = leap).
    { subst leap. apply eq_true_iff_eq. rewrite is_leap_spec.
      rewrite andb_true_iff, orb_true_iff, negb_true_iff, !Z.eqb_eq, Z.eqb_neq.
      rewrite HY. split.
      - intros [A B]. Z.div_mod_to_equations. lia.
      - intros [A B]. Z.div_mod_to_equations. lia. }
    assert (Hr1 : 0 <= r1 < (if leap then 366 else 365)) by (destruct leap; lia).
    pose proof (md_of_doy_ok leap r1 Hr1) as Hok.
    unfold md_ok, md_of_doy in Hok. cbv zeta in Hok |- *.
    match goal with
    | |- context [if ?c then _ else _] =>
        match c with (r1 <? _) => destruct c eqn:Hc end
    end.
    all: cbn [year month day]; unfold toordinal; cbn [year month day].
    all: unfold days_in_month, ymd2ord, days_before_month; rewrite Hleap, Hdby.
    all: rewrite !andb_true_iff, !Z.leb_le, Z.eqb_eq in Hok.
    all: lia.
Qed.

Lemma days_in_year_bounds (y : Z) : 365 <= days_in_year y <= 366.
Proof. unfold days_in_year; destruct (is_leap y); lia. Qed.

Lemma days_before_year_mono (y y' : Z) :
  y <= y' -> days_before_year y <= days_before_year y'.
Proof.
  intros H. replace y' with (y + Z.of_nat (Z.to_nat (y' - y))) by lia.
  induction (Z.to_nat (y' - y)) as [| k IH].
  - replace (y + Z.of_nat 0) with y by lia. lia.
  - replace (y + Z.of_nat (S k)) with (y + Z.of_nat k + 1) by lia.
    rewrite days_before_year_succ.
    pose proof (days_in_year_bounds (y + Z.of_nat k)). lia.
Qed.

Lemma days_before_year_next (y y' : Z) :
  y < y' -> days_before_year y + days_in_year y <= days_before_year y'.
Proof.
  intros H. rewrite <- days_before_year_succ.
  apply days_before_year_mono. lia.
Qed.

Lemma month_cases (m : Z) :
  1 <= m <= 12 ->
  m = 1 \/ m = 2 \/ m = 3 \/ m = 4 \/ m = 5 \/ m = 6 \/
  m = 7 \/ m = 8 \/ m = 9 \/ m = 10 \/ m = 11 \/ m = 12.
Proof. lia. Qed.

Ltac cal_simpl :=
  cbv [DAYS_IN_MONTH DAYS_BEFORE_MONTH Z.eqb Z.ltb Z.compare Pos.compare
       Pos.compare_cont Pos.eqb andb].

Ltac by_month H :=
  apply month_cases in H;
  repeat (destruct H as [H | H]); subst.

Lemma day_of_year_bounds (y m d : Z) :
  1 <= m <= 12 -> 1 <= d <= days_in_month y m ->
  1 <= days_before_month y m + d <= days_in_year y.
Proof.
  intros Hm. unfold days_in_month, days_before_month, days_in_year.
  by_month Hm; destruct (is_leap y); cal_simpl; lia.
Qed.

Lemma days_before_month_next (y m : Z) :
  1 <= m <= 11 ->
  days_before_month y (m + 1) = days_before_month y m + days_in_month y m.
Proof.
  intros Hm. unfold days_in_month, days_before_month.
  assert (Hm' : 1 <= m <= 12) by lia.
  by_month Hm'; try lia; destruct (is_leap y); reflexivity.
Qed.

Lemma days_before_month_mono (y m m' : Z) :
  1 <= m -> m < m' -> m' <= 12 ->
  days_before_month y m + days_in_month y m <= days_before_month y m'.
Proof.
  intros H1 H2 H3. unfold days_in_month, days_before_month.
  assert (Hm : 1 <= m <= 12) by lia.
  assert (Hm' : 1 <= m' <= 12) by lia.
  by_month Hm; by_month Hm'; try lia; destruct (is_leap y); cal_simpl; lia.
Qed.

Lemma days_before_year_1 : days_before_year 1 = 0.
Proof. reflexivity. Qed.

Lemma days_before_year_10000 : days_before_year 10000 = MAXORDINAL.
Proof. reflexivity. Qed.

Lemma toordinal_range (d : date) :
  valid_date d -> 1 <= toordinal d <= MAXORDINAL.
Proof.
  intros (Hy & Hm & Hd). unfold MINYEAR, MAXYEAR in Hy.
  unfold toordinal, ymd2ord.
  pose proof (day_of_year_bounds _ _ _ Hm Hd) as Hdoy.
  pose proof (days_before_year_mono 1 (year d) ltac:(lia)) as Hlo.
  pose proof (days_before_year_next (year d) 10000 ltac:(lia)) as Hhi.
  rewrite days_before_year_1 in Hlo.
  rewrite days_before_year_10000 in Hhi. lia.
Qed.

Lemma date_compare_toordinal (a b : date) :
  valid_date a -> valid_date b ->
  date_compare a b = (toordinal a ?= toordinal b).
Proof.
  intros (Hya & Hma & Hda) (Hyb & Hmb & Hdb).
  unfold date_compare, toordinal, ymd2ord.
  pose proof (day_of_year_bounds _ _ _ Hma Hda) as Ha.
  pose proof (day_of_year_bounds _ _ _ Hmb Hdb) as Hb.
  destruct (Z.compare_spec (year a) (year b)) as [Ey | Ly | Ly].
  - rewrite Ey in *.
    destruct (Z.compare_spec (month a) (month b)) as [Em | Lm | Lm].
    + rewrite Em. symmetry.
      destruct (Z.compare_spec (day a) (day b));
        [apply Z.compare_eq_iff | apply Z.compare_lt_iff | apply Z.compare_gt_iff]; lia.
    + symmetry. apply Z.compare_lt_iff.
      pose proof (days_before_month_mono (year b) (month a) (month b)
                    ltac:(lia) Lm ltac:(lia)). lia.
    + symmetry. apply Z.compare_gt_iff.
      pose proof (days_before_month_mono (year b) (month b) (month a)
                    ltac:(lia) Lm ltac:(lia)). lia.
  - symmetry. apply Z.compare_lt_iff.
    pose proof (days_before_year_next _ _ Ly). lia.
  - symmetry. apply Z.compare_gt_iff.
    pose proof (days_before_year_next _ _ Ly). lia.
Qed.

Lemma date_compare_eq (a b : date) :
  date_compare a b = Eq -> a = b.
Proof.
  unfold date_compare. destruct a as [ya ma da], b as [yb mb db]; cbn.
  destruct (Z.compare_spec ya yb); try discriminate.
  destruct (Z.compare_spec ma mb); try discriminate.
  destruct (Z.compare_spec da db); try discriminate.
  intros _. congruence.
Qed.

Lemma toordinal_inj (a b : date) :
  valid_date a -> valid_date b -> toordinal a = toordinal b -> a = b.
Proof.
  intros Ha Hb E. apply date_compare_eq.
  rewrite date_compare_toordinal by assumption.
  apply Z.compare_eq_iff, E.
Qed.

Lemma ord2ymd_valid (n : Z) :
  1 <= n <= MAXORDINAL -> valid_date (ord2ymd n).
Proof.
  intros [Hlo Hhi]. destruct (ord2ymd_spec n Hlo) as (Hy & Hm & Hd & Ho).
  revert Hy Hm Hd Ho. generalize (ord2ymd n) as d. intros d Hy Hm Hd Ho.
  unfold valid_date, MINYEAR, MAXYEAR.
  repeat split; try tauto; try lia.
  destruct (Z_le_gt_dec (year d) 9999) as [L | G]; [exact L | exfalso].
  pose proof (days_before_year_mono 10000 (year d) ltac:(lia)) as Hdb.
  rewrite days_before_year_10000 in Hdb.
  pose proof (day_of_year_bounds _ _ _ Hm Hd).
  unfold toordinal, ymd2ord in Ho. lia.
Qed.

Lemma toordinal_ord2ymd (n : Z) : 1 <= n -> toordinal (ord2ymd n) = n.
Proof. intros H. apply (ord2ymd_spec n H). Qed.

Lemma ord2ymd_toordinal (d : date) : valid_date d -> ord2ymd (toordinal d) = d.
Proof.
  intros Hd. pose proof (toordinal_range d Hd) as Hr.
  apply toordinal_inj; [apply ord2ymd_valid; exact Hr | exact Hd |].
  apply toordinal_ord2ymd. lia.
Qed.

Lemma valid_dateb_spec (d : date) : valid_dateb d = true <-> valid_date d.
Proof.
  unfold valid_dateb, valid_date.
  rewrite !andb_true_iff, !Z.leb_le. tauto.
Qed.

Lemma date_ltb_lt (a b : date) :
  valid_date a -> valid_date b ->
  date_ltb a b = true <-> toordinal a < toordinal b.
Proof.
  intros Ha Hb. unfold date_ltb. rewrite date_compare_toordinal by assumption.
  destruct (Z.compare_spec (toordinal a) (toordinal b)); split; intros; try lia; try discriminate; reflexivity.
Qed.

Lemma date_leb_le (a b : date) :
  valid_date a -> valid_date b ->
  date_leb a b = true <-> toordinal a <= toordinal b.
Proof.
  intros Ha Hb. unfold date_leb. rewrite date_compare_toordinal by assumption.
  destruct (Z.compare_spec (toordinal a) (toordinal b)); split; intros; try lia; try discriminate; reflexivity.
Qed.

Lemma date_eqb_eq (a b : date) : date_eqb a b = true <-> a = b.
Proof.
  unfold date_eqb. split.
  - destruct (date_compare a b) eqn:E; try discriminate.
    intros _. apply date_compare_eq, E.
  - intros ->. unfold date_compare. rewrite !Z.compare_refl. reflexivity.
Qed.

Lemma add_days_spec (d : date) (k : Z) :
  valid_date d -> 1 <= toordinal d + k <= MAXORDINAL ->
  exists d', add_days d k = Return d' /\ valid_date d' /\
             toordinal d' = toordinal d + k.
Proof.
  intros Hd Hr. unfold add_days.
  replace ((0 <? toordinal d + k) && (toordinal d + k <=? MAXORDINAL)) with true
    by (symmetry; apply andb_true_iff; split; [apply Z.ltb_lt | apply Z.leb_le]; lia).
  eexists; split; [reflexivity | split].
  - apply ord2ymd_valid, Hr.
  - apply toordinal_ord2ymd. lia.
Qed.

Lemma add_days_overflow (d : date) (k : Z) :
  ~ (1 <= toordinal d + k <= MAXORDINAL) -> add_days d k = Raise OverflowError.
Proof.
  intros Hr. unfold add_days.
  destruct ((0 <? toordinal d + k) && (toordinal d + k <=? MAXORDINAL)) eqn:E;
    [| reflexivity].
  apply andb_true_iff in E. rewrite Z.ltb_lt, Z.leb_le in E. lia.
Qed.

Lemma date_new_ok (y m d : Z) :
  valid_date (mkdate y m d) -> date_new y m d = Return (mkdate y m d).
Proof.
  intros (Hy & Hm & Hd); cbn [year month day] in *. unfold date_new.
  replace ((MINYEAR <=? y) && (y <=? MAXYEAR)) with true
    by (symmetry; rewrite andb_true_iff, !Z.leb_le; lia).
  replace ((1 <=? m) && (m <=? 12)) with true
    by (symmetry; rewrite andb_true_iff, !Z.leb_le; lia).
  replace ((1 <=? d) && (d <=? days_in_month y m)) with true
    by (symmetry; rewrite andb_true_iff, !Z.leb_le; lia).
  reflexivity.
Qed.

Lemma date_new_bad_month (y m d : Z) :
  ~ (1 <= m <= 12) -> date_new y m d = Raise ValueError.
Proof.
  intros Hm. unfold date_new.
  destruct ((MINYEAR <=? y) && (y <=? MAXYEAR)); [cbn | reflexivity].
  destruct ((1 <=? m) && (m <=? 12)) eqn:E; [| reflexivity].
  rewrite andb_true_iff, !Z.leb_le in E. lia.
Qed.

Lemma date_new_bad_year (y m d : Z) :
  ~ (MINYEAR <= y <= MAXYEAR) -> date_new y m d = Raise ValueError.
Proof.
  intros Hy. unfold date_new.
  destruct ((MINYEAR <=? y) && (y <=? MAXYEAR)) eqn:E; [| reflexivity].
  rewrite andb_true_iff, !Z.leb_le in E. lia.
Qed.

Lemma date_new_Return (y m d : Z) (r : date) :
  date_new y m d = Return r -> r = mkdate y m d /\ valid_date r.
Proof.
  unfold date_new.
  destruct ((MINYEAR <=? y) && (y <=? MAXYEAR)) eqn:Ey; [| discriminate].
  destruct ((1 <=? m) && (m <=? 12)) eqn:Em; [| discriminate].
  destruct ((1 <=? d) && (d <=? days_in_month y m)) eqn:Ed; [| discriminate].
  cbn. intros [= <-]. split; [reflexivity |].
  rewrite andb_true_iff, !Z.leb_le in Ey, Em, Ed.
  unfold valid_date; cbn [year month day]. tauto.
Qed.

Lemma days_in_month_pos (y m : Z) : 1 <= m <= 12 -> 28 <= days_in_month y m <= 31.
Proof.
  intros Hm. unfold days_in_month.
  by_month Hm; destruct (is_leap y); cal_simpl; lia.
Qed.



Lemma last_day_of_month (y m : Z) :
  MINYEAR <= y <= MAXYEAR -> 1 <= m <= 11 ->
  add_days (mkdate y (m + 1) 1) (-1) = Return (mkdate y m (days_in_month y m)).
Proof.
  intros Hy Hm.
  assert (Hm12 : 1 <= m <= 12) by lia.
  pose proof (days_in_month_pos y m Hm12) as Hdim.
  assert (Hv1 : valid_date (mkdate y (m + 1) 1)).
  { unfold valid_date; cbn [year month day].
    pose proof (days_in_month_pos y (m + 1) ltac:(lia)). lia. }
  assert (Hv2 : valid_date (mkdate y m (days_in_month y m))).
  { unfold valid_date; cbn [year month day]. lia. }
  assert (Ho : toordinal (mkdate y (m + 1) 1) + -1 =
               toordinal (mkdate y m (days_in_month y m))).
  { unfold toordinal, ymd2ord; cbn [year month day].
    rewrite days_before_month_next by exact Hm. lia. }
  pose proof (toordinal_range _ Hv2) as Hr.
  destruct (add_days_spec (mkdate y (m + 1) 1) (-1) Hv1 ltac:(lia))
    as (d' & -> & Hv' & Ho').
  f_equal. apply toordinal_inj; [assumption | assumption | lia].
Qed.

Lemma add_one_month_ok (d : date) :
  valid_date d -> month d <> 11 -> ~ (year d = MAXYEAR /\ month d = 12) ->
  add_one_month d = Return (next_month_date d) /\
  valid_date (next_month_date d) /\
  toordinal d < toordinal (next_month_date d).
Proof.
  intros Hv Hnov Hmax. pose proof Hv as (Hy & Hm & Hd).
  unfold add_one_month, next_month_date, next_ym.
  set (ym := if month d =? 12 then (year d + 1, 1) else (year d, month d + 1)).
  assert (Hym : MINYEAR <= fst ym <= MAXYEAR /\ 1 <= snd ym <= 11 /\
                (year d < fst ym \/ (year d = fst ym /\ month d < snd ym))).
  { subst ym. unfold MINYEAR, MAXYEAR in *.
    destruct (Z.eqb_spec (month d) 12); cbn [fst snd]; lia. }
  destruct ym as [y m]; cbn [fst snd] in Hym.
  destruct Hym as (Hy' & Hm' & Hlt).
  pose proof (days_in_month_pos y m ltac:(lia)) as Hdim.
  assert (Hv1 : valid_date (mkdate y (m + 1) 1)).
  { unfold valid_date; cbn [year month day].
    pose proof (days_in_month_pos y (m + 1) ltac:(lia)). lia. }
  rewrite (date_new_ok _ _ _ Hv1). cbn [bind].
  rewrite last_day_of_month by assumption. cbn [bind day].
  assert (Hv2 : valid_date (mkdate y m (Z.min (day d) (days_in_month y m)))).
  { unfold valid_date; cbn [year month day]. lia. }
  rewrite (date_new_ok _ _ _ Hv2).
  split; [reflexivity | split; [exact Hv2 |]].
  change (toordinal d < toordinal (mkdate y m (Z.min (day d) (days_in_month y m)))).
  unfold Z.lt. rewrite <- date_compare_toordinal by assumption.
  unfold date_compare; cbn [year month day].
  destruct Hlt as [L | [E L]].
  - apply Z.compare_lt_iff in L. rewrite L. reflexivity.
  - rewrite E, Z.compare_refl. apply Z.compare_lt_iff in L. rewrite L. reflexivity.
Qed.

Lemma add_one_month_november (d : date) :
  month d = 11 -> add_one_month d = Raise ValueError.
Proof.
  intros Hm. unfold add_one_month. rewrite Hm. cbn [Z.eqb Pos.eqb].
  rewrite date_new_bad_month by lia. reflexivity.
Qed.

Lemma add_one_month_last_year (d : date) :
  year d = MAXYEAR -> month d = 12 -> add_one_month d = Raise ValueError.
Proof.
  intros Hy Hm. unfold add_one_month. rewrite Hm, Hy. cbn [Z.eqb Pos.eqb].
  rewrite date_new_bad_year by (unfold MINYEAR, MAXYEAR; lia). reflexivity.
Qed.

Lemma add_one_month_Return (d r : date) :
  valid_date d -> add_one_month d = Return r ->
  r = next_month_date d /\ valid_date r /\ toordinal d < toordinal r /\
  month d <> 11.
Proof.
  intros Hv Hr.
  destruct (Z.eq_dec (month d) 11) as [E | N].
  { rewrite add_one_month_november in Hr by exact E. discriminate. }
  destruct (Z.eq_dec (year d) MAXYEAR) as [Ey | Ny].
  - destruct (Z.eq_dec (month d) 12) as [Em | Nm].
    { rewrite add_one_month_last_year in Hr by assumption. discriminate. }
    destruct (add_one_month_ok d Hv N ltac:(tauto)) as (Ho & Hv' & Hlt).
    rewrite Ho in Hr. injection Hr as <-. tauto.
  - destruct (add_one_month_ok d Hv N ltac:(tauto)) as (Ho & Hv' & Hlt).
    rewrite Ho in Hr. injection Hr as <-. tauto.
Qed.

(* ------------------------------------------------------------------ *)
(** ** Loops *)

(** *** The loops end *)

Lemma date_new_not_Diverged (y m d : Z) : date_new y m d <> Diverged.
Proof.
  unfold date_new.
  repeat match goal with |- context [if ?c then _ else _] => destruct c end;
    discriminate.
Qed.

Lemma add_days_not_Diverged (d : date) (k : Z) : add_days d k <> Diverged.
Proof.
  unfold add_days.
  match goal with |- context [if ?c then _ else _] => destruct c end;
    discriminate.
Qed.

Lemma add_one_month_not_Diverged (d : date) : add_one_month d <> Diverged.
Proof.
  unfold add_one_month.
  destruct (if month d =? 12 then (year d + 1, 1) else (year d, month d + 1))
    as [y m].
  intros H.
  apply bind_Diverged_inv in H as [H | (a & _ & H)];
    [exact (date_new_not_Diverged _ _ _ H) |].
  apply bind_Diverged_inv in H as [H | (b & _ & H)];
    [exact (add_days_not_Diverged _ _ H) |].
  exact (date_new_not_Diverged _ _ _ H).
Qed.

Lemma add_days_Return (d r : date) (k : Z) :
  valid_date d -> add_days d k = Return r ->
  valid_date r /\ toordinal r = toordinal d + k.
Proof.
  intros Hv. unfold add_days.
  destruct ((0 <? toordinal d + k) && (toordinal d + k <=? MAXORDINAL)) eqn:E;
    [| discriminate].
  intros [= <-]. apply andb_true_iff in E. rewrite Z.ltb_lt, Z.leb_le in E.
  split; [apply ord2ymd_valid | apply toordinal_ord2ymd]; lia.
Qed.

Section Termination.

Variable end_date : date.
Hypothesis end_valid : valid_date end_date.

Lemma advance_months_ends (fuel : nat) (current : date) :
  valid_date current ->
  (Z.to_nat (toordinal end_date - toordinal current) < fuel)%nat ->
  advance_months fuel current end_date <> Diverged.
Proof.
  revert current. induction fuel as [| fuel IH]; intros current Hv Hf; [lia |].
  cbn [advance_months].
  destruct (date_ltb current end_date) eqn:E; [| discriminate].
  apply date_ltb_lt in E; [| assumption | assumption].
  intros H. apply bind_Diverged_inv in H as [H | (next & Hn & H)].
  - exact (add_one_month_not_Diverged _ H).
  - destruct (add_one_month_Return _ _ Hv Hn) as (_ & Hv' & Hlt & _).
    refine (IH next Hv' _ H); lia.
Qed.

Lemma day_intervals_ends (fuel : nat) (current : date) (acc : list window) :
  valid_date current ->
  (Z.to_nat (toordinal end_date + 1 - toordinal current) < fuel)%nat ->
  day_intervals fuel current end_date acc <> Diverged.
Proof.
  revert current acc.
  induction fuel as [| fuel IH]; intros current acc Hv Hf; [lia |].
  cbn [day_intervals].
  destruct (date_leb current end_date) eqn:E; [| discriminate].
  apply date_leb_le in E; [| assumption | assumption].
  intros H. apply bind_Diverged_inv in H as [H | (next & Hn & H)].
  - exact (add_days_not_Diverged _ _ H).
  - destruct (add_days_Return _ _ _ Hv Hn) as (Hv' & Ho).
    refine (IH next _ Hv' _ H); lia.
Qed.

Lemma week_intervals_ends (fuel : nat) (current : date) (acc : list window) :
  valid_date current ->
  (Z.to_nat (toordinal end_date + 1 - toordinal current) < fuel)%nat ->
  week_intervals fuel current end_date acc <> Diverged.
Proof.
  revert current acc.
  induction fuel as [| fuel IH]; intros current acc Hv Hf; [lia |].
  cbn [week_intervals].
  destruct (date_leb current end_date) eqn:E; [| discriminate].
  apply date_leb_le in E; [| assumption | assumption].
  intros H. apply bind_Diverged_inv in H as [H | (iend & _ & H)].
  - exact (add_days_not_Diverged _ _ H).
  - apply bind_Diverged_inv in H as [H | (next & Hn & H)].
    + exact (add_days_not_Diverged _ _ H).
    + destruct (add_days_Return _ _ _ Hv Hn) as (Hv' & Ho).
      refine (IH next _ Hv' _ H); lia.
Qed.

Lemma month_intervals_ends (fuel : nat) (current : date) (acc : list window) :
  valid_date current ->
  (Z.to_nat (toordinal end_date + 1 - toordinal current) < fuel)%nat ->
  month_intervals fuel current end_date acc <> Diverged.
Proof.
  revert current acc.
  induction fuel as [| fuel IH]; intros current acc Hv Hf; [lia |].
  cbn [month_intervals].
  destruct (date_leb current end_date) eqn:E; [| discriminate].
  apply date_leb_le in E; [| assumption | assumption].
  intros H. apply bind_Diverged_inv in H as [H | (next & Hn & H)].
  - exact (add_one_month_not_Diverged _ H).
  - destruct (add_one_month_Return _ _ Hv Hn) as (_ & Hv' & Hlt & _).
    apply bind_Diverged_inv in H as [H | (iend & _ & H)].
    + exact (add_days_not_Diverged _ _ H).
    + refine (IH next _ Hv' _ H); lia.
Qed.

End Termination.

(** The alignment check always comes to an end. *)
Lemma validate_interval_alignment_ends
    (interval : granularity) (start_date end_date : date) :
  valid_date start_date -> valid_date end_date ->
  validate_interval_alignment interval start_date end_date <> Diverged.
Proof.
  intros Hs He. destruct interval; cbn [validate_interval_alignment].
  - discriminate.
  - match goal with |- context [if ?c then _ else _] => destruct c end;
      discriminate.
  - intros H. apply bind_Diverged_inv in H as [H | (c & _ & H)].
    + revert H. apply advance_months_ends; [assumption | assumption |].
      unfold loop_bound. lia.
    + apply bind_Diverged_inv in H as [H | (l & _ & H)].
      * exact (add_days_not_Diverged _ _ H).
      * destruct (negb (date_eqb c l)); discriminate.
Qed.

(** So does the construction of the intervals. *)
Lemma build_intervals_ends
    (interval : granularity) (start_date end_date : date) :
  valid_date start_date -> valid_date end_date ->
  build_intervals interval start_date end_date <> Diverged.
Proof.
  intros Hs He. unfold build_intervals, loop_bound.
  destruct interval;
    [apply day_intervals_ends | apply week_intervals_ends
     | apply month_intervals_ends]; try assumption; lia.
Qed.

(** *** The intervals tile the range *)

Lemma tiles_cons (s e : date) (l : list window) (from next upto : Z) :
  valid_date s -> valid_date e -> toordinal s = from -> from <= toordinal e ->
  next = toordinal e + 1 -> tiles next l upto ->
  tiles from ((s, e) :: l) upto.
Proof. intros ? ? ? ? -> ?. cbn [tiles fst snd]. tauto. Qed.

Section Tiling.

Variable end_date : date.
Hypothesis end_valid : valid_date end_date.

Lemma day_intervals_tiles (fuel : nat) (current : date) (acc : list window) :
  valid_date current ->
  toordinal end_date < MAXORDINAL ->
  toordinal current <= toordinal end_date + 1 ->
  (Z.to_nat (toordinal end_date + 1 - toordinal current) < fuel)%nat ->
  exists l, day_intervals fuel current end_date acc = Return (acc ++ l) /\
            tiles (toordinal current) l (toordinal end_date).
Proof.
  intros Hv Hmax. revert current acc Hv.
  induction fuel as [| fuel IH]; intros current acc Hv Hle Hf; [lia |].
  cbn [day_intervals].
  destruct (date_leb current end_date) eqn:E.
  - apply date_leb_le in E; [| assumption | assumption].
    destruct (add_days_spec current 1 Hv) as (next & -> & Hv' & Ho);
      [pose proof (toordinal_range _ Hv); lia |].
    cbn [bind].
    destruct (IH next (acc ++ [(current, current)]) Hv') as (l & -> & Ht);
      [lia | lia |].
    exists ((current, current) :: l). rewrite <- app_assoc. split; [reflexivity |].
    apply (tiles_cons _ _ _ _ (toordinal next)); try assumption; lia.
  - exists []. rewrite app_nil_r. split; [reflexivity |]. cbn [tiles].
    assert (~ toordinal current <= toordinal end_date).
    { intros L. apply date_leb_le in L; [congruence | assumption | assumption]. }
    lia.
Qed.

Lemma week_intervals_tiles (fuel : nat) (current : date) (acc : list window) :
  valid_date current ->
  toordinal end_date < MAXORDINAL ->
  toordinal current <= toordinal end_date + 1 ->
  (toordinal end_date + 1 - toordinal current) mod 7 = 0 ->
  (Z.to_nat (toordinal end_date + 1 - toordinal current) < fuel)%nat ->
  exists l, week_intervals fuel current end_date acc = Return (acc ++ l) /\
            tiles (toordinal current) l (toordinal end_date).
Proof.
  intros Hv Hmax. revert current acc Hv.
  induction fuel as [| fuel IH]; intros current acc Hv Hle Hmod Hf; [lia |].
  cbn [week_intervals].
  pose proof (toordinal_range _ Hv) as Hr.
  destruct (date_leb current end_date) eqn:E.
  - apply date_leb_le in E; [| assumption | assumption].
    assert (Hroom : toordinal current + 7 <= toordinal end_date + 1).
    { apply Z.mod_divide in Hmod; [| lia]. destruct Hmod as [q Hq]. lia. }
    destruct (add_days_spec current 6 Hv) as (iend & -> & Hvi & Hoi); [lia |].
    destruct (add_days_spec current 7 Hv) as (next & -> & Hv' & Ho); [lia |].
    cbn [bind].
    destruct (IH next (acc ++ [(current, iend)]) Hv') as (l & -> & Ht);
      [lia | | lia |].
    { rewrite Ho.
      replace (toordinal end_date + 1 - (toordinal current + 7))
        with (toordinal end_date + 1 - toordinal current + (-1) * 7) by lia.
      rewrite Z.mod_add by lia. exact Hmod. }
    exists ((current, iend) :: l). rewrite <- app_assoc. split; [reflexivity |].
    apply (tiles_cons _ _ _ _ (toordinal next)); try assumption; lia.
  - exists []. rewrite app_nil_r. split; [reflexivity |]. cbn [tiles].
    assert (~ toordinal current <= toordinal end_date).
    { intros L. apply date_leb_le in L; [congruence | assumption | assumption]. }
    lia.
Qed.

(** The month loop walks the dates the alignment check walked. *)
Lemma month_intervals_tiles (fuel : nat) (current landing : date)
    (acc : list window) :
  valid_date current ->
  advance_months fuel current end_date = Return landing ->
  toordinal landing = toordinal end_date + 1 ->
  exists l, month_intervals fuel current end_date acc = Return (acc ++ l) /\
            tiles (toordinal current) l (toordinal end_date).
Proof.
  revert current acc.
  induction fuel as [| fuel IH]; intros current acc Hv Hadv Hland;
    [discriminate |].
  cbn [advance_months] in Hadv. cbn [month_intervals].
  destruct (date_ltb current end_date) eqn:E.
  - apply date_ltb_lt in E; [| assumption | assumption].
    apply bind_Return_inv in Hadv as (next & Hnext & Hadv).
    destruct (add_one_month_Return _ _ Hv Hnext) as (_ & Hv' & Hlt & _).
    replace (date_leb current end_date) with true
      by (symmetry; apply date_leb_le; [assumption | assumption | lia]).
    rewrite Hnext. cbn [bind].
    pose proof (toordinal_range _ Hv) as Hr.
    pose proof (toordinal_range _ Hv') as Hr'.
    destruct (add_days_spec next (-1) Hv') as (iend & -> & Hvi & Hoi); [lia |].
    cbn [bind].
    destruct (IH next (acc ++ [(current, iend)]) Hv' Hadv Hland) as (l & -> & Ht).
    exists ((current, iend) :: l). rewrite <- app_assoc. split; [reflexivity |].
    apply (tiles_cons _ _ _ _ (toordinal next)); try assumption; lia.
  - injection Hadv as <-.
    replace (date_leb current end_date) with false.
    + exists []. rewrite app_nil_r. split; [reflexivity |]. exact Hland.
    + symmetry. apply not_true_is_false. intros L.
      apply date_leb_le in L; [lia | assumption | assumption].
Qed.

End Tiling.

(** *** From a tiling to a partition *)

Lemma tiles_last (l : list window) (w : window) (from upto : Z) :
  tiles from (w :: l) upto ->
  exists front w', w :: l = front ++ [w'] /\
                   valid_date (snd w') /\ toordinal (snd w') = upto.
Proof.
  revert w from. induction l as [| w2 l IH]; intros w from Ht.
  - exists [], w. cbn [tiles] in Ht. split; [reflexivity |].
    split; [tauto | lia].
  - destruct Ht as (_ & _ & _ & _ & Ht).
    destruct (IH w2 _ Ht) as (front & w' & E & Hv & Ho).
    exists (w :: front), w'. rewrite E. split; [reflexivity | tauto].
Qed.

Lemma tiles_adjacent (l : list window) (from upto : Z) :
  tiles from l upto -> adjacent l.
Proof.
  revert from. induction l as [| w1 l IH]; intros from Ht; [exact I |].
  destruct l as [| w2 l]; [exact I |].
  destruct Ht as (_ & Hv1 & _ & _ & Ht).
  split; [| exact (IH _ Ht)].
  destruct Ht as (Hv2 & _ & Ho & _).
  pose proof (toordinal_range _ Hv2) as Hr.
  destruct (add_days_spec (snd w1) 1 Hv1) as (d & -> & Hvd & Hod); [lia |].
  f_equal. apply toordinal_inj; [assumption | assumption | lia].
Qed.

Lemma tiles_ordered (l : list window) (from upto : Z) :
  tiles from l upto -> Forall (fun w => date_leb (fst w) (snd w) = true) l.
Proof.
  revert from. induction l as [| w l IH]; intros from Ht; constructor.
  - destruct Ht as (Hv1 & Hv2 & Ho & Hle & _).
    apply date_leb_le; [assumption | assumption | lia].
  - destruct Ht as (_ & _ & _ & _ & Ht). exact (IH _ Ht).
Qed.

Lemma tiles_partition (start_date end_date : date) (l : list window) :
  valid_date start_date -> valid_date end_date ->
  toordinal start_date <= toordinal end_date ->
  tiles (toordinal start_date) l (toordinal end_date) ->
  partition_of start_date end_date l.
Proof.
  intros Hs He Hle Ht.
  destruct l as [| w l]; [cbn [tiles] in Ht; lia |].
  repeat split.
  - exists w, l. split; [reflexivity |].
    destruct Ht as (Hv & _ & Ho & _).
    apply toordinal_inj; assumption.
  - destruct (tiles_last _ _ _ _ Ht) as (front & w' & E & Hv & Ho).
    exists front, w'. split; [exact E |].
    apply toordinal_inj; assumption.
  - exact (tiles_adjacent _ _ _ Ht).
  - exact (tiles_ordered _ _ _ Ht).
Qed.

Lemma date_max_ordinal : toordinal date_max = MAXORDINAL.
Proof. reflexivity. Qed.

Lemma date_max_valid : valid_date date_max.
Proof. apply valid_dateb_spec. reflexivity. Qed.

Lemma before_date_max (d : date) :
  valid_date d -> d <> date_max -> toordinal d < MAXORDINAL.
Proof.
  intros Hv Hne. pose proof (toordinal_range _ Hv) as Hr.
  destruct (Z.eq_dec (toordinal d) MAXORDINAL) as [E | N]; [| lia].
  exfalso. apply Hne. apply toordinal_inj;
    [assumption | exact date_max_valid | rewrite date_max_ordinal; exact E].
Qed.

Lemma intervals_partition_aux
    (interval : granularity) (start_date end_date : date) :
  valid_date start_date -> valid_date end_date ->
  date_leb start_date end_date = true ->
  (interval = Day -> end_date <> date_max) ->
  validate_interval_alignment interval start_date end_date = Return tt ->
  exists l, build_intervals interval start_date end_date = Return l /\
            partition_of start_date end_date l.
Proof.
  intros Hs He Hle Hmax Hval.
  apply date_leb_le in Hle; [| assumption | assumption].
  pose proof (toordinal_range _ He) as Hre.
  assert (Ht : exists l, build_intervals interval start_date end_date = Return l /\
                         tiles (toordinal start_date) l (toordinal end_date)).
  { unfold build_intervals, loop_bound.
    destruct interval; cbn [validate_interval_alignment] in Hval.
    - pose proof (before_date_max _ He (Hmax eq_refl)) as Hlt.
      apply (day_intervals_tiles end_date He _ start_date []); try assumption; lia.
    - destruct (negb (weekday start_date =? 6) || negb (weekday end_date =? 5))
        eqn:E; [discriminate |].
      apply orb_false_iff in E. rewrite !negb_false_iff, !Z.eqb_eq in E.
      unfold weekday in E. destruct E as [E1 E2]. unfold MAXORDINAL in *.
      apply (week_intervals_tiles end_date He _ start_date []);
        try assumption; unfold MAXORDINAL; Z.div_mod_to_equations; lia.
    - apply bind_Return_inv in Hval as (landing & Hadv & Hval).
      apply bind_Return_inv in Hval as (limit & Hlim & Hval).
      destruct (negb (date_eqb landing limit)) eqn:E; [discriminate |].
      apply negb_false_iff, date_eqb_eq in E. subst limit.
      destruct (add_days_Return _ _ _ He Hlim) as (_ & Ho).
      exact (month_intervals_tiles end_date He _ start_date landing [] Hs Hadv Ho). }
  destruct Ht as (l & Hb & Ht). exists l. split; [exact Hb |].
  apply tiles_partition; assumption.
Qed.

(** *** Both copies of the interval construction *)

Lemma day_intervals6_eq (fuel : nat) (current end_date : date) (acc : list window) :
  day_intervals6 fuel current end_date acc = day_intervals fuel current end_date acc.
Proof.
  revert current acc. induction fuel as [| fuel IH]; intros;
    cbn [day_intervals6 day_intervals]; [reflexivity |].
  destruct (date_leb current end_date); [| reflexivity].
  destruct (add_days current 1); cbn [bind]; auto.
Qed.

Lemma week_intervals6_eq (fuel : nat) (current end_date : date) (acc : list window) :
  week_intervals6 fuel current end_date acc = week_intervals fuel current end_date acc.
Proof.
  revert current acc. induction fuel as [| fuel IH]; intros;
    cbn [week_intervals6 week_intervals]; [reflexivity |].
  destruct (date_leb current end_date); [| reflexivity].
  destruct (add_days current 6); cbn [bind]; [| reflexivity | reflexivity].
  destruct (add_days current 7); cbn [bind]; auto.
Qed.

Lemma month_intervals6_eq (fuel : nat) (current end_date : date) (acc : list window) :
  month_intervals6 fuel current end_date acc = month_intervals fuel current end_date acc.
Proof.
  revert current acc. induction fuel as [| fuel IH]; intros;
    cbn [month_intervals6 month_intervals]; [reflexivity |].
  destruct (date_leb current end_date); [| reflexivity].
  destruct (add_one_month current) as [next | |]; cbn [bind];
    [| reflexivity | reflexivity].
  destruct (add_days next (-1)); cbn [bind]; auto.
Qed.

Lemma build_intervals6_ends
    (interval : granularity) (start_date end_date : date) :
  valid_date start_date -> valid_date end_date ->
  build_intervals6 interval start_date end_date <> Diverged.
Proof.
  intros Hs He. unfold build_intervals6, loop_bound.
  destruct interval;
    [rewrite day_intervals6_eq; apply day_intervals_ends
    | rewrite week_intervals6_eq; apply week_intervals_ends
    | rewrite month_intervals6_eq; apply month_intervals_ends];
    try assumption; lia.
Qed.

(* ------------------------------------------------------------------ *)
(** ** Responses and sections *)

(** *** The loops over a response are sums *)

Section Sums.

Variable goals : list string.

Lemma goal_in_Some (g : option string) :
  goal_in g goals = true -> exists s, g = Some s.
Proof. destruct g as [s |]; [eauto | discriminate]. Qed.

Lemma sum_visitors_cons (it : item) (items : list item) :
  sum_visitors goals (it :: items) =
  (if matches goals it then visitors_of it else 0) + sum_visitors goals items.
Proof.
  unfold sum_visitors, zsum. cbn [filter].
  destruct (matches goals it); cbn [map fold_right]; lia.
Qed.

Lemma sum_events_cons (it : item) (items : list item) :
  sum_events goals (it :: items) =
  (if matches goals it then events_of it else 0) + sum_events goals items.
Proof.
  unfold sum_events, zsum. cbn [filter].
  destruct (matches goals it); cbn [map fold_right]; lia.
Qed.

Lemma count_goal_visitors_sum (items : list item) (st : Z * list (string * Z)) :
  fst (fold_left (count_goal_visitors goals) items st) =
  fst st + sum_visitors goals items.
Proof.
  revert st. induction items as [| it items IH]; intros st; cbn [fold_left].
  - unfold sum_visitors; cbn. lia.
  - rewrite IH, sum_visitors_cons. unfold count_goal_visitors, matches.
    destruct (goal_in (goal_of it) goals) eqn:E; [| lia].
    destruct (goal_in_Some _ E) as (g & ->). cbn [fst]. unfold visitors_of. lia.
Qed.

Lemma count_events_sum (items : list item) (total : Z) :
  fold_left (count_events goals) items total = total + sum_events goals items.
Proof.
  revert total. induction items as [| it items IH]; intros total; cbn [fold_left].
  - unfold sum_events; cbn. lia.
  - rewrite IH, sum_events_cons. unfold count_events, matches, events_of.
    destruct (goal_in (goal_of it) goals); lia.
Qed.

Lemma count_interval_sum (items : list item) (st : Z * Z) :
  fold_left (count_interval goals) items st =
  (fst st + sum_visitors goals items, snd st + sum_events goals items).
Proof.
  revert st. induction items as [| it items IH]; intros st; cbn [fold_left].
  - unfold sum_visitors, sum_events; cbn. destruct st; cbn; f_equal; lia.
  - rewrite IH, sum_visitors_cons, sum_events_cons.
    unfold count_interval, matches, visitors_of, events_of.
    destruct (goal_in (goal_of it) goals); cbn [fst snd]; f_equal; lia.
Qed.

Lemma count_conversions_sum (items : list item) (total : Z) :
  fold_left (count_conversions goals) items total =
  total + sum_visitors goals items.
Proof.
  revert total. induction items as [| it items IH]; intros total; cbn [fold_left].
  - unfold sum_visitors; cbn. lia.
  - rewrite IH, sum_visitors_cons. unfold count_conversions, matches, visitors_of.
    destruct (goal_in (goal_of it) goals); lia.
Qed.

(** With no entry for a requested goal the loops leave their state alone. *)
Lemma count_goal_visitors_no_match (items : list item) (st : Z * list (string * Z)) :
  Forall (fun it => matches goals it = false) items ->
  fold_left (count_goal_visitors goals) items st = st.
Proof.
  intros H. revert st. induction H as [| it items Hit _ IH]; intros st;
    cbn [fold_left]; [reflexivity |].
  rewrite IH. unfold count_goal_visitors. unfold matches in Hit.
  rewrite Hit. reflexivity.
Qed.

Lemma sum_visitors_no_match (items : list item) :
  Forall (fun it => matches goals it = false) items ->
  sum_visitors goals items = 0.
Proof.
  induction 1 as [| it items Hit _ IH]; [reflexivity |].
  rewrite sum_visitors_cons, Hit, IH. reflexivity.
Qed.

Lemma sum_events_no_match (items : list item) :
  Forall (fun it => matches goals it = false) items ->
  sum_events goals items = 0.
Proof.
  induction 1 as [| it items Hit _ IH]; [reflexivity |].
  rewrite sum_events_cons, Hit, IH. reflexivity.
Qed.

End Sums.

Lemma capped_min (sum ceiling : Z) : capped sum ceiling (Z.min sum ceiling).
Proof. unfold capped. lia. Qed.

(** *** The sections of a run *)

Section RunLemmas.

Variable breakdown :
  window -> list metric -> option string -> outcome (list item).
Variable aggregate :
  window -> option string -> option string -> outcome (option Z).
Variable interval : granularity.
Variables start_date end_date : date.
Variable page_path : string.
Variable goals : list string.

Lemma section1_Return (s1 : Z * list (string * Z)) :
  section1 breakdown aggregate start_date end_date goals = Return s1 ->
  exists items site,
    breakdown (start_date, end_date) [Visitors] None = Return items /\
    aggregate (start_date, end_date) None None = Return site /\
    fst s1 = Z.min (sum_visitors goals items) (get_default site 0) /\
    snd s1 = snd (fold_left (count_goal_visitors goals) items (0, [])).
Proof.
  unfold section1. intros H.
  apply bind_Return_inv in H as (items & Hb & H).
  apply bind_Return_inv in H as (site & Ha & H).
  injection H as <-. exists items, site.
  rewrite count_goal_visitors_sum. cbn [fst snd].
  repeat split; assumption || reflexivity.
Qed.

Lemma section2_Return (events : Z) :
  section2 breakdown start_date end_date goals = Return events ->
  exists items,
    breakdown (start_date, end_date) [Events] None = Return items /\
    events = sum_events goals items.
Proof.
  unfold section2. intros H.
  apply bind_Return_inv in H as (items & Hb & H).
  injection H as <-. exists items. rewrite count_events_sum.
  split; [assumption | reflexivity].
Qed.

Lemma section3_loop_Return (intervals : list window) (total : Z)
    (lines rows : list (Z * Z)) :
  section3_loop breakdown goals intervals total lines = Return rows ->
  exists new, rows = lines ++ new /\
    Forall2 (fun w row =>
               exists items,
                 breakdown w [Visitors; Events] None = Return items /\
                 row = (sum_events goals items,
                        Z.min (sum_visitors goals items) total))
            intervals new.
Proof.
  revert lines. induction intervals as [| w rest IH]; intros lines H.
  - injection H as <-. exists []. rewrite app_nil_r. split; constructor.
  - cbn in H. apply bind_Return_inv in H as (items & Hb & H).
    apply IH in H as (new & -> & Hall).
    rewrite count_interval_sum in *. cbn [fst snd] in *.
    eexists (_ :: new). rewrite <- app_assoc. split; [reflexivity |].
    constructor; [| exact Hall]. exists items. split; [exact Hb | reflexivity].
Qed.

Lemma conversion_loop_Return (gs : list string) (init total : Z) :
  conversion_loop aggregate start_date end_date page_path gs init =
  Return total ->
  exists vals,
    Forall2 (fun g v =>
               aggregate (start_date, end_date) (Some g) (Some page_path) =
               Return v) gs vals /\
    total = init + zsum (map (fun v => get_default v 0) vals).
Proof.
  revert init. induction gs as [| g rest IH]; intros init H.
  - injection H as <-. exists []. split; [constructor | cbn; lia].
  - cbn in H. apply bind_Return_inv in H as (v & Ha & H).
    apply IH in H as (vals & Hall & ->).
    exists (v :: vals). split; [constructor; assumption |].
    unfold zsum. cbn [map fold_right]. lia.
Qed.

Lemma section5_Return (s5 : Z * Z * Q) :
  section5 aggregate start_date end_date page_path goals = Return s5 ->
  exists home vals,
    aggregate (start_date, end_date) None (Some page_path) = Return home /\
    Forall2 (fun g v =>
               aggregate (start_date, end_date) (Some g) (Some page_path) =
               Return v) goals vals /\
    s5 = (Z.min (zsum (map (fun v => get_default v 0) vals)) (get_default home 0),
          get_default home 0,
          percent (Z.min (zsum (map (fun v => get_default v 0) vals))
                         (get_default home 0))
                  (get_default home 0)).
Proof.
  unfold section5. intros H.
  apply bind_Return_inv in H as (home & Ha & H).
  apply bind_Return_inv in H as (summed & Hl & H).
  apply conversion_loop_Return in Hl as (vals & Hall & ->).
  injection H as <-. exists home, vals. rewrite ?Z.add_0_l.
  repeat split; assumption.
Qed.

Lemma section6_loop_Return (intervals : list window)
    (line rows : list (Z * Z * Q)) :
  section6_loop breakdown aggregate page_path goals intervals line =
  Return rows ->
  exists new, rows = line ++ new /\
    Forall2 (fun w row =>
               exists home items,
                 aggregate w None (Some page_path) = Return home /\
                 breakdown w [Visitors] (Some page_path) = Return items /\
                 row = (Z.min (sum_visitors goals items) (get_default home 0),
                        get_default home 0,
                        percent (Z.min (sum_visitors goals items)
                                       (get_default home 0))
                                (get_default home 0)))
            intervals new.
Proof.
  revert line. induction intervals as [| w rest IH]; intros line H.
  - injection H as <-. exists []. rewrite app_nil_r. split; constructor.
  - cbn in H. apply bind_Return_inv in H as (home & Ha & H).
    apply bind_Return_inv in H as (items & Hb & H).
    apply IH in H as (new & -> & Hall).
    rewrite count_conversions_sum, ?Z.add_0_l in *.
    eexists (_ :: new). rewrite <- app_assoc. split; [reflexivity |].
    constructor; [| exact Hall]. exists home, items.
    repeat split; assumption.
Qed.

(** A run that returns went through every section. *)
Lemma main_Return (r : report) :
  main breakdown aggregate interval start_date end_date page_path goals =
  Return r ->
  exists s1 s5 intervals intervals6,
    validate_interval_alignment interval start_date end_date = Return tt /\
    date_ltb end_date start_date = false /\
    section1 breakdown aggregate start_date end_date goals = Return s1 /\
    section2 breakdown start_date end_date goals = Return (total_events r) /\
    build_intervals interval start_date end_date = Return intervals /\
    section3_loop breakdown goals intervals (fst s1) [] =
    Return (interval_lines r) /\
    section5 aggregate start_date end_date page_path goals = Return s5 /\
    build_intervals6 interval start_date end_date = Return intervals6 /\
    section6_loop breakdown aggregate page_path goals intervals6 [] =
    Return (interval_rates r) /\
    r = mkreport (fst s1) (snd s1) (total_events r) (interval_lines r)
          (section4 (snd s1) (fst s1)) s5 (interval_rates r).
Proof.
  unfold main. intros H.
  apply bind_Return_inv in H as ([] & Hin & H).
  apply bind_Return_inv in H as ([] & Hval & H).
  apply bind_Return_inv in H as (s1 & H1 & H).
  apply bind_Return_inv in H as (events & H2 & H).
  apply bind_Return_inv in H as (lines3 & H3 & H).
  apply bind_Return_inv in H as (s5 & H5 & H).
  apply bind_Return_inv in H as (lines6 & H6 & H).
  injection H as <-. cbn [total_events interval_lines interval_rates].
  unfold section3 in H3. apply bind_Return_inv in H3 as (intervals & Hb3 & H3).
  unfold section6 in H6. apply bind_Return_inv in H6 as (intervals6 & Hb6 & H6).
  exists s1, s5, intervals, intervals6.
  destruct (date_ltb end_date start_date); [discriminate |].
  repeat split; assumption || reflexivity.
Qed.

(** A run comes to an end when the backend answers every query. *)
Hypothesis breakdown_answers : forall w ms page, breakdown w ms page <> Diverged.
Hypothesis aggregate_answers : forall w goal page, aggregate w goal page <> Diverged.

Lemma section3_loop_ends (intervals : list window) (total : Z)
    (lines : list (Z * Z)) :
  section3_loop breakdown goals intervals total lines <> Diverged.
Proof.
  revert lines. induction intervals as [| w rest IH]; intros lines H;
    [discriminate |].
  cbn [section3_loop] in H.
  apply bind_Diverged_inv in H as [H | (items & _ & H)].
  - exact (breakdown_answers _ _ _ H).
  - exact (IH _ H).
Qed.

Lemma conversion_loop_ends (gs : list string) (init : Z) :
  conversion_loop aggregate start_date end_date page_path gs init <> Diverged.
Proof.
  revert init. induction gs as [| g rest IH]; intros init H; [discriminate |].
  cbn [conversion_loop] in H.
  apply bind_Diverged_inv in H as [H | (v & _ & H)].
  - exact (aggregate_answers _ _ _ H).
  - exact (IH _ H).
Qed.

Lemma section6_loop_ends (intervals : list window) (line : list (Z * Z * Q)) :
  section6_loop breakdown aggregate page_path goals intervals line <> Diverged.
Proof.
  revert line. induction intervals as [| w rest IH]; intros line H;
    [discriminate |].
  cbn [section6_loop] in H.
  apply bind_Diverged_inv in H as [H | (home & _ & H)];
    [exact (aggregate_answers _ _ _ H) |].
  apply bind_Diverged_inv in H as [H | (items & _ & H)];
    [exact (breakdown_answers _ _ _ H) |].
  exact (IH _ H).
Qed.

Lemma main_ends :
  valid_date start_date -> valid_date end_date ->
  main breakdown aggregate interval start_date end_date page_path goals <>
  Diverged.
Proof.
  intros Hs He H. unfold main in H.
  apply bind_Diverged_inv in H as [H | ([] & _ & H)];
    [destruct (date_ltb end_date start_date); discriminate |].
  apply bind_Diverged_inv in H as [H | ([] & _ & H)];
    [exact (validate_interval_alignment_ends _ _ _ Hs He H) |].
  apply bind_Diverged_inv in H as [H | (s1 & _ & H)].
  { unfold section1 in H.
    apply bind_Diverged_inv in H as [H | (items & _ & H)];
      [exact (breakdown_answers _ _ _ H) |].
    apply bind_Diverged_inv in H as [H | (site & _ & H)];
      [exact (aggregate_answers _ _ _ H) | discriminate]. }
  apply bind_Diverged_inv in H as [H | (events & _ & H)].
  { unfold section2 in H.
    apply bind_Diverged_inv in H as [H | (items & _ & H)];
      [exact (breakdown_answers _ _ _ H) | discriminate]. }
  apply bind_Diverged_inv in H as [H | (lines3 & _ & H)].
  { unfold section3 in H.
    apply bind_Diverged_inv in H as [H | (ivs & _ & H)];
      [exact (build_intervals_ends _ _ _ Hs He H) |].
    exact (section3_loop_ends _ _ _ H). }
  apply bind_Diverged_inv in H as [H | (s5 & _ & H)].
  { unfold section5 in H.
    apply bind_Diverged_inv in H as [H | (home & _ & H)];
      [exact (aggregate_answers _ _ _ H) |].
    apply bind_Diverged_inv in H as [H | (summed & _ & H)];
      [exact (conversion_loop_ends _ _ H) | discriminate]. }
  apply bind_Diverged_inv in H as [H | (lines6 & _ & H)]; [| discriminate].
  unfold section6 in H.
  apply bind_Diverged_inv in H as [H | (ivs & _ & H)].
  - exact (build_intervals6_ends _ _ _ Hs He H).
  - exact (section6_loop_ends _ _ H).
Qed.

End RunLemmas.

(** *** Sorting *)



Lemma insert_desc_In (x y : string * Z) (l : list (string * Z)) :
  In y (insert_desc x l) -> y = x \/ In y l.
Proof.
  induction l as [| z l IH]; cbn [insert_desc].
  - intros [<- | []]. left; reflexivity.
  - destruct (snd x <? snd z).
    + intros [<- | H]; [right; left; reflexivity |].
      destruct (IH H) as [-> | H']; [left; reflexivity | right; right; exact H'].
    + intros [<- | H]; [left; reflexivity | right; exact H].
Qed.

Lemma insert_desc_sorted (x : string * Z) (l : list (string * Z)) :
  StronglySorted count_desc l -> StronglySorted count_desc (insert_desc x l).
Proof.
  induction 1 as [| z l Hs IH Hall]; cbn [insert_desc].
  - constructor; constructor.
  - destruct (Z.ltb_spec (snd x) (snd z)) as [L | G].
    + constructor; [exact IH |].
      apply Forall_forall. intros y Hy.
      destruct (insert_desc_In _ _ _ Hy) as [-> | Hin].
      * unfold count_desc. lia.
      * rewrite Forall_forall in Hall. exact (Hall y Hin).
    + constructor; [constructor; assumption |].
      constructor; [unfold count_desc; lia |].
      apply Forall_forall. intros y Hy. rewrite Forall_forall in Hall.
      specialize (Hall y Hy). unfold count_desc in *. lia.
Qed.

Lemma sorted_desc_sorted (l : list (string * Z)) :
  StronglySorted count_desc (sorted_desc l).
Proof.
  induction l as [| x l IH]; cbn; [constructor |].
  apply insert_desc_sorted, IH.
Qed.

Lemma insert_desc_perm (x : string * Z) (l : list (string * Z)) :
  Permutation (x :: l) (insert_desc x l).
Proof.
  induction l as [| z l IH]; cbn [insert_desc]; [reflexivity |].
  destruct (snd x <? snd z); [| reflexivity].
  rewrite perm_swap. constructor. exact IH.
Qed.

Lemma sorted_desc_perm (l : list (string * Z)) :
  Permutation l (sorted_desc l).
Proof.
  induction l as [| x l IH]; cbn; [constructor |].
  rewrite <- insert_desc_perm. constructor. exact IH.
Qed.

Lemma StronglySorted_map {A B : Type} (R : A -> A -> Prop) (R' : B -> B -> Prop)
    (f : A -> B) (l : list A) :
  (forall a b, R a b -> R' (f a) (f b)) ->
  StronglySorted R l -> StronglySorted R' (map f l).
Proof.
  intros Hf. induction 1 as [| a l Hs IH Hall]; cbn; constructor.
  - exact IH.
  - apply Forall_forall. intros y Hy. apply in_map_iff in Hy as (b & <- & Hb).
    rewrite Forall_forall in Hall. apply Hf, Hall, Hb.
Qed.

Lemma StronglySorted_before {A : Type} (R : A -> A -> Prop)
    (l1 l2 l3 : list A) (a b : A) :
  StronglySorted R (l1 ++ a :: l2 ++ b :: l3) -> R a b.
Proof.
  induction l1 as [| x l1 IH]; cbn; intros H.
  - apply StronglySorted_inv in H as [_ Hall].
    rewrite Forall_forall in Hall. apply Hall.
    apply in_or_app. right. left. reflexivity.
  - apply StronglySorted_inv in H as [H _]. exact (IH H).
Qed.

(* ------------------------------------------------------------------ *)
(** ** The properties of the report *)

Section Report.

Variable breakdown :
  window -> list metric -> option string -> outcome (list item).
Variable aggregate :
  window -> option string -> option string -> outcome (option Z).
Variable interval : granularity.
Variables start_date end_date : date.
Variable page_path : string.
Variable goals : list string.

(** C1.  In a run that returns, every visitor count that is a sum of
    per-goal counts with an aggregate over the same window and filters is
    the smaller of the sum and the aggregate, hence at most the aggregate:
    the whole-range total against the site aggregate, the page
    conversions against the page aggregate, and the same per interval.  A
    sum of 150 against a site aggregate of 120 gives 120. *)
Theorem capping_rule (r : report) :
  main breakdown aggregate interval start_date end_date page_path goals =
  Return r ->
  (exists items site,
      breakdown (start_date, end_date) [Visitors] None = Return items /\
      aggregate (start_date, end_date) None None = Return site /\
      capped (sum_visitors goals items) (get_default site 0)
             (total_goal_visitors r) /\
      (sum_visitors goals items = 150 -> get_default site 0 = 120 ->
       total_goal_visitors r = 120)) /\
  (exists vals home,
      Forall2 (fun g v =>
                 aggregate (start_date, end_date) (Some g) (Some page_path) =
                 Return v) goals vals /\
      aggregate (start_date, end_date) None (Some page_path) = Return home /\
      capped (zsum (map (fun v => get_default v 0) vals)) (get_default home 0)
             (fst (fst (conversion r)))) /\
  (exists intervals,
      build_intervals6 interval start_date end_date = Return intervals /\
      Forall2 (fun w row =>
                 exists items home,
                   breakdown w [Visitors] (Some page_path) = Return items /\
                   aggregate w None (Some page_path) = Return home /\
                   capped (sum_visitors goals items) (get_default home 0)
                          (fst (fst row)))
              intervals (interval_rates r)).
Proof.
  intros H. apply main_Return in H
    as (s1 & s5 & ivs & ivs6 & _ & _ & H1 & _ & _ & _ & H5 & Hb6 & H6 & Hr).
  apply section1_Return in H1 as (items & site & Hb & Ha & Ht & _).
  apply section5_Return in H5 as (home & vals & Hh & Hall & Hs5).
  apply section6_loop_Return in H6 as (rows & Hrows & Hall6).
  rewrite Hr. cbn [total_goal_visitors conversion interval_rates].
  cbn [app] in Hrows. repeat split.
  - exists items, site. rewrite Ht.
    repeat split; try assumption; try apply capped_min. lia.
  - exists vals, home. rewrite Hs5. cbn [fst].
    repeat split; try assumption; apply capped_min.
  - exists ivs6. split; [exact Hb6 |]. rewrite Hrows.
    eapply Forall2_impl; [| exact Hall6].
    intros w row (h & its & Hah & Hbh & ->). exists its, h. cbn [fst].
    repeat split; try assumption; apply capped_min.
Qed.

(** C3.  In the events / visitors section each interval's visitor figure
    is the interval's summed per-goal count capped at the reconciled total
    of the whole range, the value Section 1 computed; no aggregate is
    queried for the interval. *)
Theorem interval_visitors_capped_by_total (r : report) :
  main breakdown aggregate interval start_date end_date page_path goals =
  Return r ->
  exists intervals,
    build_intervals interval start_date end_date = Return intervals /\
    Forall2 (fun w row =>
               exists items,
                 breakdown w [Visitors; Events] None = Return items /\
                 snd row = Z.min (sum_visitors goals items)
                                 (total_goal_visitors r))
            intervals (interval_lines r).
Proof.
  intros H. apply main_Return in H
    as (s1 & s5 & ivs & ivs6 & _ & _ & _ & _ & Hb3 & H3 & _ & _ & _ & Hr).
  apply section3_loop_Return in H3 as (rows & Hrows & Hall).
  cbn [app] in Hrows. exists ivs. split; [exact Hb3 |].
  rewrite Hrows. rewrite Hr. cbn [total_goal_visitors].
  eapply Forall2_impl; [| exact Hall].
  intros w row (items & Hb & ->). exists items. split; [exact Hb | reflexivity].
Qed.

(** C8.  The events totals are plain sums over the requested goals of the
    breakdown response, for the whole range and for each interval; nothing
    caps them. *)
Theorem events_plain_sum (r : report) :
  main breakdown aggregate interval start_date end_date page_path goals =
  Return r ->
  (exists items,
      breakdown (start_date, end_date) [Events] None = Return items /\
      total_events r = sum_events goals items) /\
  (exists intervals,
      build_intervals interval start_date end_date = Return intervals /\
      Forall2 (fun w row =>
                 exists items,
                   breakdown w [Visitors; Events] None = Return items /\
                   fst row = sum_events goals items)
              intervals (interval_lines r)).
Proof.
  intros H. apply main_Return in H
    as (s1 & s5 & ivs & ivs6 & _ & _ & _ & H2 & Hb3 & H3 & _ & _ & _ & _).
  apply section2_Return in H2 as (items & Hb & He).
  apply section3_loop_Return in H3 as (rows & Hrows & Hall).
  cbn [app] in Hrows. split.
  - exists items. split; assumption.
  - exists ivs. split; [exact Hb3 |]. rewrite Hrows.
    eapply Forall2_impl; [| exact Hall].
    intros w row (its & Hbi & ->). exists its. split; [exact Hbi | reflexivity].
Qed.

End Report.

Local Open Scope string_scope.

Lemma capping_rule_witness :
  main overlap_breakdown overlap_aggregate Week
       (mkdate 2024 6 2) (mkdate 2024 6 8) "/" ["A"; "B"] =
  Return overlap_report /\
  exists items site,
    overlap_breakdown (mkdate 2024 6 2, mkdate 2024 6 8) [Visitors] None =
    Return items /\
    overlap_aggregate (mkdate 2024 6 2, mkdate 2024 6 8) None None =
    Return site /\
    capped (sum_visitors ["A"; "B"] items) (get_default site 0)
           (total_goal_visitors overlap_report) /\
    (sum_visitors ["A"; "B"] items = 150 -> get_default site 0 = 120 ->
     total_goal_visitors overlap_report = 120).
Proof.
  split; [vm_compute; reflexivity |].
  apply (capping_rule overlap_breakdown overlap_aggregate Week
           (mkdate 2024 6 2) (mkdate 2024 6 8) "/" ["A"; "B"] overlap_report).
  vm_compute; reflexivity.
Defined.

Lemma interval_visitors_capped_by_total_witness :
  main signup_breakdown signup_aggregate Day
       (mkdate 2024 6 1) (mkdate 2024 6 2) "/" ["signup"] =
  Return signup_report /\
  exists intervals,
    build_intervals Day (mkdate 2024 6 1) (mkdate 2024 6 2) = Return intervals /\
    Forall2 (fun w row =>
               exists items,
                 signup_breakdown w [Visitors; Events] None = Return items /\
                 snd row = Z.min (sum_visitors ["signup"] items)
                                 (total_goal_visitors signup_report))
            intervals (interval_lines signup_report).
Proof.
  split; [vm_compute; reflexivity |].
  apply (interval_visitors_capped_by_total signup_breakdown signup_aggregate Day
           (mkdate 2024 6 1) (mkdate 2024 6 2) "/" ["signup"] signup_report).
  vm_compute; reflexivity.
Defined.

Lemma events_plain_sum_witness :
  main signup_breakdown signup_aggregate Day
       (mkdate 2024 6 1) (mkdate 2024 6 2) "/" ["signup"] =
  Return signup_report /\
  exists items,
    signup_breakdown (mkdate 2024 6 1, mkdate 2024 6 2) [Events] None =
    Return items /\
    total_events signup_report = sum_events ["signup"] items.
Proof.
  split; [vm_compute; reflexivity |].
  apply (events_plain_sum signup_breakdown signup_aggregate Day
           (mkdate 2024 6 1) (mkdate 2024 6 2) "/" ["signup"] signup_report).
  vm_compute; reflexivity.
Defined.

(* ------------------------------------------------------------------ *)
(** ** The partition *)

(** C2, as amended.  For dates [start_date <= end_date] that pass the
    alignment check, and at day granularity an [end_date] before the last
    date there is, the construction returns a list of intervals: the first
    starts at [start_date], the last ends at [end_date], and each one
    starts on the day after the one before it ends. *)
Theorem intervals_partition
    (interval : granularity) (start_date end_date : date) :
  valid_date start_date -> valid_date end_date ->
  date_leb start_date end_date = true ->
  (interval = Day -> end_date <> date_max) ->
  validate_interval_alignment interval start_date end_date = Return tt ->
  exists l, build_intervals interval start_date end_date = Return l /\
            partition_of start_date end_date l.
Proof. exact (intervals_partition_aux interval start_date end_date). Qed.

Lemma intervals_partition_witness :
  (valid_date (mkdate 2024 1 1) /\ valid_date (mkdate 2024 3 31) /\
   date_leb (mkdate 2024 1 1) (mkdate 2024 3 31) = true /\
   validate_interval_alignment Month (mkdate 2024 1 1) (mkdate 2024 3 31) =
   Return tt) /\
  exists l, build_intervals Month (mkdate 2024 1 1) (mkdate 2024 3 31) = Return l /\
            partition_of (mkdate 2024 1 1) (mkdate 2024 3 31) l.
Proof.
  assert (V1 : valid_date (mkdate 2024 1 1)) by (vm_compute; intuition discriminate).
  assert (V2 : valid_date (mkdate 2024 3 31)) by (vm_compute; intuition discriminate).
  split;
    [split; [exact V1 | split; [exact V2 | split; vm_compute; reflexivity]] |].
  apply (intervals_partition Month (mkdate 2024 1 1) (mkdate 2024 3 31)).
  - exact V1.
  - exact V2.
  - vm_compute; reflexivity.
  - discriminate.
  - vm_compute; reflexivity.
Defined.

(** C2 as stated fails on the last day of the calendar: at day
    granularity the range 9999-12-31 .. 9999-12-31 passes the check, and
    the loop then steps past [date.max] and stops on [OverflowError]. *)
Lemma intervals_partition_fails_on_last_day :
  ~ (forall (interval : granularity) (start_date end_date : date),
        valid_date start_date -> valid_date end_date ->
        date_leb start_date end_date = true ->
        validate_interval_alignment interval start_date end_date = Return tt ->
        exists l, build_intervals interval start_date end_date = Return l /\
                  partition_of start_date end_date l).
Proof.
  intros H.
  destruct (H Day date_max date_max date_max_valid date_max_valid
              eq_refl eq_refl) as (l & Hl & _).
  vm_compute in Hl. discriminate.
Qed.

(** C10.  Section 6 builds its interval list with its own copy of the
    loops of Section 3; the two give the same outcome on every input. *)
Theorem build_intervals6_same
    (interval : granularity) (start_date end_date : date) :
  build_intervals6 interval start_date end_date =
  build_intervals interval start_date end_date.
Proof.
  unfold build_intervals6, build_intervals. destruct interval.
  - apply day_intervals6_eq.
  - apply week_intervals6_eq.
  - apply month_intervals6_eq.
Qed.

(* ------------------------------------------------------------------ *)
(** ** Adding a month *)

(** The three dates of the month rollover examples. *)
Lemma add_one_month_examples :
  add_one_month (mkdate 2024 1 31) = Return (mkdate 2024 2 29) /\
  add_one_month (mkdate 2023 1 31) = Return (mkdate 2023 2 28) /\
  add_one_month (mkdate 2024 12 15) = Return (mkdate 2025 1 15).
Proof. repeat split; reflexivity. Qed.

(** C4.  [add_one_month] is not total on valid dates: it stops on
    [ValueError] exactly on the dates of November (where it asks for the
    first day of month 13) and of December 9999. *)
Theorem add_one_month_raises (d : date) :
  valid_date d ->
  (add_one_month d = Raise ValueError <->
   month d = 11 \/ (year d = MAXYEAR /\ month d = 12)) /\
  (month d = 11 -> forall r, add_one_month d <> Return r).
Proof.
  intros Hv. split; [split |].
  - intros H.
    destruct (Z.eq_dec (month d) 11) as [E | N]; [left; exact E | right].
    destruct (Z.eq_dec (year d) MAXYEAR) as [Ey | Ny].
    + destruct (Z.eq_dec (month d) 12) as [Em | Nm]; [tauto |].
      destruct (add_one_month_ok d Hv N ltac:(tauto)) as (Ho & _).
      rewrite Ho in H. discriminate.
    + destruct (add_one_month_ok d Hv N ltac:(tauto)) as (Ho & _).
      rewrite Ho in H. discriminate.
  - intros [E | [Ey Em]].
    + apply add_one_month_november, E.
    + apply add_one_month_last_year; assumption.
  - intros E r H. rewrite add_one_month_november in H by exact E. discriminate.
Qed.

Lemma add_one_month_raises_witness :
  valid_date (mkdate 2024 11 15) /\
  add_one_month (mkdate 2024 11 15) = Raise ValueError.
Proof.
  assert (V : valid_date (mkdate 2024 11 15)) by (vm_compute; intuition discriminate).
  split; [exact V |].
  apply (add_one_month_raises (mkdate 2024 11 15) V).
  left. reflexivity.
Defined.

(** C6.  On 2024-11-30 the same day of the next month is 2024-12-30;
    [add_one_month] stops on [ValueError] instead. *)
Theorem add_one_month_misses_december :
  next_month_date (mkdate 2024 11 30) = mkdate 2024 12 30 /\
  add_one_month (mkdate 2024 11 30) = Raise ValueError.
Proof. split; reflexivity. Qed.

(** The day and week cases of the alignment check. *)
Lemma validate_day_accepts (start_date end_date : date) :
  validate_interval_alignment Day start_date end_date = Return tt.
Proof. reflexivity. Qed.

Lemma validate_week_outcome (start_date end_date : date) :
  (weekday start_date <> 6 \/ weekday end_date <> 5 ->
   validate_interval_alignment Week start_date end_date = Raise AlignmentError) /\
  (weekday start_date = 6 -> weekday end_date = 5 ->
   validate_interval_alignment Week start_date end_date = Return tt).
Proof.
  cbn [validate_interval_alignment].
  destruct (Z.eqb_spec (weekday start_date) 6) as [E1 | N1];
    destruct (Z.eqb_spec (weekday end_date) 5) as [E2 | N2];
    cbn [negb orb]; split; intros; tauto || reflexivity.
Qed.

(** A month range that starts in November never gets past its first step. *)
Lemma validate_month_from_november (start_date end_date : date) :
  month start_date = 11 -> date_ltb start_date end_date = true ->
  validate_interval_alignment Month start_date end_date = Raise ValueError.
Proof.
  intros Hm Hlt. cbn [validate_interval_alignment loop_bound advance_months].
  rewrite Hlt, add_one_month_november by exact Hm. reflexivity.
Qed.

(** C5.  Two month ranges on which the check neither accepts nor reports
    an alignment error: November 2024, a whole calendar month, and
    2024-10-05 .. 2024-12-31, which is not aligned.  On both the loop
    reaches [add_one_month] on a November date and stops on [ValueError]. *)
Theorem validate_month_stops_in_november :
  validate_interval_alignment Month (mkdate 2024 11 1) (mkdate 2024 11 30) =
  Raise ValueError /\
  next_month_date (mkdate 2024 11 1) = mkdate 2024 12 1 /\
  add_days (mkdate 2024 11 30) 1 = Return (mkdate 2024 12 1) /\
  validate_interval_alignment Month (mkdate 2024 10 5) (mkdate 2024 12 31) =
  Raise ValueError.
Proof. repeat split; vm_compute; reflexivity. Qed.

(* ------------------------------------------------------------------ *)
(** ** Counts and rates *)

(** C7.  A response with no entry for a requested goal leaves every count
    at 0 (the loops are total, so nothing is raised), and capping 0 at a
    non-negative aggregate gives 0; a percentage or rate over a
    denominator of 0 is 0 and prints as [0.00%]. *)
Theorem zero_counts_and_rates (goals : list string) (items : list item) :
  Forall (fun it => matches goals it = false) items ->
  fold_left (count_goal_visitors goals) items (0, []) = (0, []) /\
  fold_left (count_events goals) items 0 = 0 /\
  fold_left (count_interval goals) items (0, 0) = (0, 0) /\
  fold_left (count_conversions goals) items 0 = 0 /\
  (forall ceiling, 0 <= ceiling ->
     Z.min (fst (fold_left (count_goal_visitors goals) items (0, []))) ceiling = 0 /\
     Z.min (fst (fold_left (count_interval goals) items (0, 0))) ceiling = 0 /\
     Z.min (fold_left (count_conversions goals) items 0) ceiling = 0) /\
  (forall count, percent count 0 = 0%Q /\
                 render_rate (percent count 0) = "0.00%" /\
                 forall goal, render_goal_line (percent count 0, count, goal) =
                              "0.00% (" ++ str count ++ ")  " ++ goal).
Proof.
  intros H.
  assert (H1 := count_goal_visitors_no_match goals items (0, []) H).
  assert (H2 : fold_left (count_events goals) items 0 = 0)
    by (rewrite count_events_sum, sum_events_no_match by exact H; reflexivity).
  assert (H3 : fold_left (count_interval goals) items (0, 0) = (0, 0))
    by (rewrite count_interval_sum, sum_events_no_match, sum_visitors_no_match
          by exact H; reflexivity).
  assert (H4 : fold_left (count_conversions goals) items 0 = 0)
    by (rewrite count_conversions_sum, sum_visitors_no_match by exact H;
        reflexivity).
  repeat split; try assumption.
  - rewrite H1. cbn [fst]. lia.
  - rewrite H3. cbn [fst]. lia.
  - rewrite H4. lia.
Qed.

Lemma zero_counts_and_rates_witness :
  Forall (fun it => matches ["signup"] it = false)
         [mkitem None (Some "pageview") None (Some 40) (Some 90)] /\
  fold_left (count_events ["signup"])
            [mkitem None (Some "pageview") None (Some 40) (Some 90)] 0 = 0.
Proof.
  assert (F : Forall (fun it => matches ["signup"] it = false)
                     [mkitem None (Some "pageview") None (Some 40) (Some 90)])
    by (repeat constructor).
  split; [exact F |].
  apply (zero_counts_and_rates ["signup"] _ F).
Defined.

(** C9.  The breakdown-by-percent section lists the entries of the
    goal-visitor map by descending count: of two lines the earlier has the
    count that is not smaller, so with distinct counts the larger comes
    first.  The map A 30, B 50, C 20 with total 100 prints B, A, C at
    50.00%, 30.00% and 20.00%. *)
Theorem goals_by_descending_count
    (goal_visitor_map : list (string * Z)) (total : Z) :
  let rows := section4 goal_visitor_map total in
  Permutation (map (fun row : Q * Z * string => (snd row, snd (fst row))) rows)
              goal_visitor_map /\
  StronglySorted (fun a b : Q * Z * string => snd (fst b) <= snd (fst a)) rows /\
  (forall l1 a l2 b l3,
      rows = (l1 ++ a :: l2 ++ b :: l3)%list ->
      snd (fst b) <= snd (fst a) /\
      (snd (fst a) <> snd (fst b) -> snd (fst b) < snd (fst a))) /\
  map render_goal_line (section4 [("A", 30); ("B", 50); ("C", 20)] 100) =
  ["50.00% (50)  B"; "30.00% (30)  A"; "20.00% (20)  C"].
Proof.
  intros rows.
  assert (Hs : StronglySorted
                 (fun a b : Q * Z * string => snd (fst b) <= snd (fst a)) rows).
  { subst rows. unfold section4.
    apply (StronglySorted_map count_desc); [| apply sorted_desc_sorted].
    intros a b Hab. exact Hab. }
  split; [| split; [exact Hs | split; [| reflexivity]]].
  - subst rows. unfold section4. rewrite map_map. cbn [fst snd].
    rewrite (map_ext _ (fun x => x)) by (intros []; reflexivity).
    rewrite map_id. symmetry. apply sorted_desc_perm.
  - intros l1 a l2 b l3 E. rewrite E in Hs.
    pose proof (StronglySorted_before _ _ _ _ _ _ Hs) as Hab.
    cbv beta in Hab. lia.
Qed.

(* ================================================================== *)
(** * Further properties of the script *)

Local Open Scope list_scope.
Local Open Scope Z_scope.
Local Open Scope outcome_scope.

(* ------------------------------------------------------------------ *)
(** ** The goal arguments *)

Lemma replace_char_length (old new : ascii) (s : string) :
  String.length (replace_char old new s) = String.length s.
Proof. induction s as [| c s IH]; cbn; [reflexivity | now rewrite IH]. Qed.

Lemma replace_char_occurs (old new : ascii) (s : string) :
  old <> new -> occurs old (replace_char old new s) = false.
Proof.
  intros Hne. induction s as [| c s IH]; cbn; [reflexivity |].
  rewrite IH, orb_false_r.
  destruct (Ascii.eqb_spec c old) as [-> | N].
  - apply Ascii.eqb_neq. congruence.
  - apply Ascii.eqb_neq. exact N.
Qed.

Lemma replace_char_absent (old new : ascii) (s : string) :
  occurs old s = false -> replace_char old new s = s.
Proof.
  induction s as [| c s IH]; cbn; [reflexivity |].
  intros H. apply orb_false_iff in H as [Hc Hs].
  rewrite Hc, (IH Hs). reflexivity.
Qed.

Lemma goal_in_In (g : string) (goals : list string) :
  goal_in (Some g) goals = true <-> In g goals.
Proof.
  cbn [goal_in]. rewrite existsb_exists. split.
  - intros (x & Hx & E). apply String.eqb_eq in E. now subst.
  - intros H. exists g. split; [exact H | apply String.eqb_refl].
Qed.

(** X1.  Normalising the goal arguments keeps their number and the length
    of each, leaves no [+] in any of them, leaves an argument without [+]
    as it is, and changes nothing when done twice. *)
Theorem normalize_goals_spec (args_goals : list string) :
  List.length (normalize_goals args_goals) = List.length args_goals /\
  Forall (fun g => occurs "+" g = false) (normalize_goals args_goals) /\
  Forall2 (fun a g => String.length g = String.length a /\
                      (occurs "+" a = false -> g = a))
          args_goals (normalize_goals args_goals) /\
  normalize_goals (normalize_goals args_goals) = normalize_goals args_goals.
Proof.
  unfold normalize_goals. split; [apply length_map |].
  split; [| split].
  - apply Forall_forall. intros g Hg. apply in_map_iff in Hg as (a & <- & _).
    apply replace_char_occurs. discriminate.
  - induction args_goals as [| a l IH]; cbn [map]; constructor; [| exact IH].
    split; [apply replace_char_length | apply replace_char_absent].
  - rewrite map_map. apply map_ext. intros a.
    apply replace_char_absent, replace_char_occurs. discriminate.
Qed.

(** X2.  An argument typed with [+] for spaces selects the entry whose
    name has the spaces; an entry whose name itself contains [+] is never
    selected, whatever was typed. *)
Theorem plus_stands_for_space
    (args_goals : list string) (it : item) (g : string) :
  goal_of it = Some g ->
  (matches (normalize_goals args_goals) it = true <->
   exists a, In a args_goals /\ replace_char "+" " " a = g) /\
  (occurs "+" g = true -> matches (normalize_goals args_goals) it = false).
Proof.
  intros Hg. unfold matches. rewrite Hg.
  assert (Hiff : goal_in (Some g) (normalize_goals args_goals) = true <->
                 exists a, In a args_goals /\ replace_char "+" " " a = g).
  { rewrite goal_in_In. unfold normalize_goals. rewrite in_map_iff.
    split; intros (a & H1 & H2); exists a; tauto. }
  split; [exact Hiff |].
  intros Hplus. apply not_true_is_false. intros H.
  apply Hiff in H as (a & _ & <-).
  rewrite replace_char_occurs in Hplus by discriminate. discriminate.
Qed.

Lemma plus_stands_for_space_witness :
  goal_of (mkitem (Some "Sign Up"%string) None None (Some 3) None) = Some "Sign Up"%string /\
  (matches (normalize_goals ["Sign+Up"%string])
           (mkitem (Some "Sign Up"%string) None None (Some 3) None) = true <->
   exists a, In a ["Sign+Up"%string] /\ replace_char "+" " " a = "Sign Up"%string).
Proof.
  split; [reflexivity |].
  apply (plus_stands_for_space ["Sign+Up"%string]
           (mkitem (Some "Sign Up"%string) None None (Some 3) None) "Sign Up"%string).
  reflexivity.
Defined.

(* ------------------------------------------------------------------ *)
(** ** The goal-visitor map *)

Lemma dict_set_keys (m : list (string * Z)) (k : string) (v : Z) :
  map fst (dict_set m k v) =
  if existsb (String.eqb k) (map fst m) then map fst m else map fst m ++ [k].
Proof.
  induction m as [| [k' v'] m IH]; cbn [dict_set map fst existsb app];
    [reflexivity |].
  rewrite (String.eqb_sym k k').
  destruct (String.eqb_spec k' k) as [-> | N]; cbn [map fst orb]; [reflexivity |].
  rewrite IH. destruct (existsb (String.eqb k) (map fst m)); reflexivity.
Qed.

Lemma existsb_eqb_In (k : string) (l : list string) :
  existsb (String.eqb k) l = true <-> In k l.
Proof. exact (goal_in_In k l). Qed.

Lemma dict_set_NoDup (m : list (string * Z)) (k : string) (v : Z) :
  NoDup (map fst m) -> NoDup (map fst (dict_set m k v)).
Proof.
  intros H. rewrite dict_set_keys.
  destruct (existsb (String.eqb k) (map fst m)) eqn:E; [exact H |].
  apply NoDup_app; [exact H | repeat constructor; intros [] |].
  intros x Hx [<- | []].
  apply existsb_eqb_In in Hx. congruence.
Qed.

Lemma dict_set_In_key (m : list (string * Z)) (k k' : string) (v : Z) :
  In k' (map fst (dict_set m k v)) <-> In k' (map fst m) \/ k' = k.
Proof.
  rewrite dict_set_keys.
  destruct (existsb (String.eqb k) (map fst m)) eqn:E.
  - apply existsb_eqb_In in E. split; [tauto | intros [H | ->]; assumption].
  - rewrite in_app_iff. cbn [In]. split; intros [H | H]; intuition congruence.
Qed.

Lemma dict_get_set (m : list (string * Z)) (k k' : string) (v : Z) :
  dict_get (dict_set m k v) k' =
  if String.eqb k k' then Some v else dict_get m k'.
Proof.
  induction m as [| [k0 v0] m IH]; cbn [dict_set dict_get].
  - reflexivity.
  - destruct (String.eqb_spec k0 k) as [-> | N]; cbn [dict_get].
    + destruct (String.eqb k k'); reflexivity.
    + rewrite IH. destruct (String.eqb_spec k0 k') as [-> | N'].
      * destruct (String.eqb_spec k k'); [congruence | reflexivity].
      * reflexivity.
Qed.

Lemma dict_set_fresh (m : list (string * Z)) (k : string) (v : Z) :
  ~ In k (map fst m) -> dict_set m k v = m ++ [(k, v)].
Proof.
  induction m as [| [k0 v0] m IH]; cbn [dict_set map fst In app];
    intros H; [reflexivity |].
  destruct (String.eqb_spec k0 k) as [-> | N]; [tauto |].
  rewrite IH by tauto. reflexivity.
Qed.

Section GoalMap.

Variable goals : list string.

Lemma count_goal_visitors_step (st : Z * list (string * Z)) (it : item) :
  snd (count_goal_visitors goals st it) =
  match goal_of it with
  | Some g => if goal_in (Some g) goals
              then dict_set (snd st) g (visitors_of it) else snd st
  | None => snd st
  end.
Proof.
  unfold count_goal_visitors, visitors_of.
  destruct (goal_of it) as [g |]; [| reflexivity].
  destruct (goal_in (Some g) goals); reflexivity.
Qed.

Lemma goal_map_keys (items : list item) (st : Z * list (string * Z)) :
  NoDup (map fst (snd st)) ->
  NoDup (map fst (snd (fold_left (count_goal_visitors goals) items st))) /\
  forall k,
    In k (map fst (snd (fold_left (count_goal_visitors goals) items st))) <->
    In k (map fst (snd st)) \/
    (In k goals /\ exists it, In it items /\ goal_of it = Some k).
Proof.
  revert st. induction items as [| it items IH]; intros st Hnd;
    cbn [fold_left].
  - split; [exact Hnd |]. intros k. split; [tauto |].
    intros [H | (_ & it & [] & _)]. exact H.
  - assert (Hnd' : NoDup (map fst (snd (count_goal_visitors goals st it)))).
    { rewrite count_goal_visitors_step.
      destruct (goal_of it) as [g |]; [| exact Hnd].
      destruct (goal_in (Some g) goals); [| exact Hnd].
      apply dict_set_NoDup, Hnd. }
    destruct (IH _ Hnd') as [H1 H2]. split; [exact H1 |].
    intros k. rewrite H2, count_goal_visitors_step. clear H1 H2 IH.
    destruct (goal_of it) as [g |] eqn:Eg.
    + destruct (goal_in (Some g) goals) eqn:Ein.
      * rewrite dict_set_In_key. apply goal_in_In in Ein. split.
        -- intros [[H | ->] | (Hk & x & Hx & Hgx)].
           ++ left; exact H.
           ++ right. split; [exact Ein |]. exists it. split; [left; reflexivity | exact Eg].
           ++ right. split; [exact Hk |]. exists x. split; [right; exact Hx | exact Hgx].
        -- intros [H | (Hk & x & [<- | Hx] & Hgx)].
           ++ left; left; exact H.
           ++ left; right. congruence.
           ++ right. split; [exact Hk |]. exists x. tauto.
      * split.
        -- intros [H | (Hk & x & Hx & Hgx)]; [left; exact H |].
           right. split; [exact Hk |]. exists x. split; [right; exact Hx | exact Hgx].
        -- intros [H | (Hk & x & [<- | Hx] & Hgx)]; [left; exact H | |].
           ++ exfalso. apply goal_in_In in Hk. congruence.
           ++ right. split; [exact Hk |]. exists x. tauto.
    + split.
      * intros [H | (Hk & x & Hx & Hgx)]; [left; exact H |].
        right. split; [exact Hk |]. exists x. split; [right; exact Hx | exact Hgx].
      * intros [H | (Hk & x & [<- | Hx] & Hgx)]; [left; exact H | congruence |].
        right. split; [exact Hk |]. exists x. tauto.
Qed.

Lemma find_snoc {A : Type} (p : A -> bool) (l : list A) (x : A) :
  find p (l ++ [x]) =
  match find p l with
  | Some y => Some y
  | None => if p x then Some x else None
  end.
Proof.
  induction l as [| y l IH]; cbn [app find]; [reflexivity |].
  destruct (p y); [reflexivity | exact IH].
Qed.

Lemma goal_map_get (g : string) (items : list item) (st : Z * list (string * Z)) :
  dict_get (snd (fold_left (count_goal_visitors goals) items st)) g =
  match (if goal_in (Some g) goals then last_visitors g items else None) with
  | Some v => Some v
  | None => dict_get (snd st) g
  end.
Proof.
  revert st. induction items as [| it items IH]; intros st; cbn [fold_left].
  - unfold last_visitors. destruct (goal_in (Some g) goals); reflexivity.
  - rewrite IH, count_goal_visitors_step. clear IH.
    unfold last_visitors. cbn [rev]. rewrite find_snoc.
    destruct (goal_in (Some g) goals) eqn:Ein.
    + destruct (find (names g) (rev items)) as [y |]; cbn [option_map];
        [reflexivity |].
      unfold names. destruct (goal_of it) as [g' |]; [| reflexivity].
      destruct (String.eqb_spec g' g) as [-> | N].
      * rewrite Ein, dict_get_set, String.eqb_refl. reflexivity.
      * destruct (goal_in (Some g') goals); [| reflexivity].
        rewrite dict_get_set.
        destruct (String.eqb_spec g' g); [congruence | reflexivity].
    + destruct (goal_of it) as [g' |]; [| reflexivity].
      destruct (goal_in (Some g') goals) eqn:Ein'; [| reflexivity].
      rewrite dict_get_set.
      destruct (String.eqb_spec g' g) as [-> | N]; [congruence | reflexivity].
Qed.

Lemma requested_counts (items : list item) :
  map snd (requested goals items) =
  map visitors_of (filter (matches goals) items).
Proof.
  induction items as [| it items IH]; cbn [requested filter map];
    [reflexivity |].
  unfold matches at 1. destruct (goal_of it) as [g |]; cbn [goal_in].
  - destruct (existsb (String.eqb g) goals); cbn [map snd]; now rewrite IH.
  - exact IH.
Qed.

Lemma goal_map_requested (items : list item) (st : Z * list (string * Z)) :
  NoDup (map fst (snd st) ++ map fst (requested goals items)) ->
  snd (fold_left (count_goal_visitors goals) items st) =
  snd st ++ requested goals items.
Proof.
  revert st. induction items as [| it items IH]; intros st Hnd;
    cbn [fold_left requested].
  - now rewrite app_nil_r.
  - cbn [requested] in Hnd.
    destruct (goal_of it) as [g |] eqn:Eg.
    + destruct (goal_in (Some g) goals) eqn:Ein.
      * cbn [map fst] in Hnd.
        assert (Hfresh : ~ In g (map fst (snd st))).
        { intros Hin. apply NoDup_remove_2 in Hnd. apply Hnd.
          apply in_or_app. left. exact Hin. }
        assert (Hst : snd (count_goal_visitors goals st it) =
                      snd st ++ [(g, visitors_of it)]).
        { rewrite count_goal_visitors_step, Eg, Ein.
          apply dict_set_fresh, Hfresh. }
        rewrite IH; rewrite Hst.
        -- rewrite <- app_assoc. reflexivity.
        -- rewrite map_app, <- app_assoc. cbn [map fst app].
           apply NoDup_Add with (a := g) (l := map fst (snd st) ++ map fst (requested goals items)).
           ++ apply Add_app.
           ++ apply NoDup_remove in Hnd. exact (conj (proj1 Hnd) (proj2 Hnd)).
      * rewrite IH; rewrite count_goal_visitors_step, Eg, Ein;
          [reflexivity | exact Hnd].
    + rewrite IH; rewrite count_goal_visitors_step, Eg; [reflexivity | exact Hnd].
Qed.

End GoalMap.

(** X3.  The goal-visitor map never holds a goal twice, and its goals are
    exactly the requested goals that some entry of the response names. *)
Theorem goal_map_keys_spec (goals : list string) (items : list item) :
  NoDup (map fst (goal_map_of goals items)) /\
  forall k,
    In k (map fst (goal_map_of goals items)) <->
    In k goals /\ exists it, In it items /\ goal_of it = Some k.
Proof.
  unfold goal_map_of.
  destruct (goal_map_keys goals items (0, [])) as [H1 H2]; [constructor |].
  split; [exact H1 |]. intros k. rewrite H2. cbn [snd map In]. tauto.
Qed.

(** X4.  When the response names a goal more than once the map keeps the
    visitors of the last such entry (the total of Section 1 adds them all
    up); a goal that was not requested is not in the map. *)
Theorem goal_map_last_wins (goals : list string) (items : list item) (g : string) :
  dict_get (goal_map_of goals items) g =
  if goal_in (Some g) goals then last_visitors g items else None.
Proof.
  unfold goal_map_of. rewrite goal_map_get. cbn [snd dict_get].
  destruct (goal_in (Some g) goals); [| reflexivity].
  destruct (last_visitors g items); reflexivity.
Qed.

(** X5.  When no requested goal is named twice in the response, the map
    lists the requested entries in the order of the response, and its
    counts add up to the sum Section 1 caps. *)
Theorem goal_map_without_repeats (goals : list string) (items : list item) :
  NoDup (map fst (requested goals items)) ->
  goal_map_of goals items = requested goals items /\
  zsum (map snd (goal_map_of goals items)) = sum_visitors goals items.
Proof.
  intros Hnd.
  assert (E : goal_map_of goals items = requested goals items).
  { unfold goal_map_of. rewrite goal_map_requested; [reflexivity | exact Hnd]. }
  split; [exact E |].
  rewrite E, requested_counts. reflexivity.
Qed.

Lemma goal_map_without_repeats_witness :
  NoDup (map fst (requested ["A"; "B"]%string
                    [mkitem (Some "A"%string) None None (Some 100) (Some 300);
                     mkitem None None (Some "B"%string) (Some 50) (Some 60)])) /\
  goal_map_of ["A"; "B"]%string
    [mkitem (Some "A"%string) None None (Some 100) (Some 300);
     mkitem None None (Some "B"%string) (Some 50) (Some 60)] =
  requested ["A"; "B"]%string
    [mkitem (Some "A"%string) None None (Some 100) (Some 300);
     mkitem None None (Some "B"%string) (Some 50) (Some 60)].
Proof.
  assert (H : NoDup (map fst (requested ["A"; "B"]%string
                    [mkitem (Some "A"%string) None None (Some 100) (Some 300);
                     mkitem None None (Some "B"%string) (Some 50) (Some 60)]))).
  { vm_compute. repeat constructor; cbn; intuition discriminate. }
  split; [exact H |].
  apply (goal_map_without_repeats ["A"; "B"]%string _ H).
Defined.

(* ------------------------------------------------------------------ *)
(** ** Ties in Section 4 *)

Lemma insert_desc_filter (c : Z) (x : string * Z) (l : list (string * Z)) :
  filter (fun e => snd e =? c) (insert_desc x l) =
  (if snd x =? c then [x] else []) ++ filter (fun e => snd e =? c) l.
Proof.
  induction l as [| y l IH]; cbn [insert_desc filter].
  - destruct (snd x =? c); reflexivity.
  - destruct (Z.ltb_spec (snd x) (snd y)) as [L | G]; cbn [filter].
    + rewrite IH. destruct (Z.eqb_spec (snd y) c) as [Ey | Ny]; [| reflexivity].
      destruct (Z.eqb_spec (snd x) c) as [Ex | Nx]; [lia | reflexivity].
    + destruct (snd x =? c); reflexivity.
Qed.

Lemma sorted_desc_filter (c : Z) (l : list (string * Z)) :
  filter (fun e => snd e =? c) (sorted_desc l) = filter (fun e => snd e =? c) l.
Proof.
  induction l as [| x l IH]; [reflexivity |].
  cbn [sorted_desc fold_right]. fold (sorted_desc l).
  rewrite insert_desc_filter, IH. cbn [filter].
  destruct (snd x =? c); reflexivity.
Qed.

(** X6.  The sort of Section 4 is stable: the goals that share a count
    are listed in the order the map holds them, which is the order in
    which the response first named them. *)
Theorem ties_keep_map_order
    (goal_visitor_map : list (string * Z)) (total c : Z) :
  map (fun row : Q * Z * string => snd row)
      (filter (fun row : Q * Z * string => snd (fst row) =? c)
              (section4 goal_visitor_map total)) =
  map fst (filter (fun e : string * Z => snd e =? c) goal_visitor_map).
Proof.
  unfold section4.
  rewrite <- (sorted_desc_filter c goal_visitor_map).
  induction (sorted_desc goal_visitor_map) as [| e l IH]; [reflexivity |].
  cbn [map filter fst snd]. destruct (snd e =? c); cbn [map snd]; now rewrite IH.
Qed.

(* ------------------------------------------------------------------ *)
(** ** The shape of the intervals *)

Lemma day_windows_S (from : Z) (k : nat) :
  day_windows from (S k) =
  (ord2ymd from, ord2ymd from) :: day_windows (from + 1) k.
Proof.
  unfold day_windows. cbn [seq map]. rewrite Z.add_0_r. f_equal.
  rewrite <- seq_shift, map_map. apply map_ext. intros i.
  replace (from + 1 + Z.of_nat i) with (from + Z.of_nat (S i)) by lia.
  reflexivity.
Qed.

Lemma week_windows_S (from : Z) (k : nat) :
  week_windows from (S k) =
  (ord2ymd from, ord2ymd (from + 6)) :: week_windows (from + 7) k.
Proof.
  unfold week_windows. cbn [seq map]. rewrite Z.mul_0_r, Z.add_0_r. f_equal.
  rewrite <- seq_shift, map_map. apply map_ext. intros i.
  replace (from + 7 + 7 * Z.of_nat i) with (from + 7 * Z.of_nat (S i)) by lia.
  reflexivity.
Qed.

Lemma add_days_value (d : date) (k : Z) :
  valid_date d -> 1 <= toordinal d + k <= MAXORDINAL ->
  add_days d k = Return (ord2ymd (toordinal d + k)).
Proof.
  intros Hv Hr. unfold add_days.
  replace ((0 <? toordinal d + k) && (toordinal d + k <=? MAXORDINAL)) with true;
    [reflexivity |].
  symmetry. apply andb_true_iff. split; [apply Z.ltb_lt | apply Z.leb_le]; lia.
Qed.

Lemma date_leb_false (a b : date) :
  valid_date a -> valid_date b ->
  date_leb a b = false <-> toordinal b < toordinal a.
Proof.
  intros Ha Hb. pose proof (date_leb_le a b Ha Hb) as H.
  destruct (date_leb a b); split; intros Hx; try discriminate; try reflexivity.
  - assert (toordinal a <= toordinal b) by (apply H; reflexivity). lia.
  - destruct (Z_le_gt_dec (toordinal a) (toordinal b)) as [L | G]; [| lia].
    apply H in L. discriminate.
Qed.

Section Shapes.

Variable end_date : date.
Hypothesis end_valid : valid_date end_date.

Lemma day_intervals_closed (fuel : nat) (current : date) (acc : list window) :
  valid_date current ->
  toordinal end_date < MAXORDINAL ->
  (Z.to_nat (toordinal end_date + 1 - toordinal current) < fuel)%nat ->
  day_intervals fuel current end_date acc =
  Return (acc ++ day_windows (toordinal current)
                   (Z.to_nat (toordinal end_date + 1 - toordinal current))).
Proof.
  intros Hv Hmax. revert current acc Hv.
  induction fuel as [| fuel IH]; intros current acc Hv Hf; [lia |].
  cbn [day_intervals].
  pose proof (toordinal_range _ Hv) as Hr.
  destruct (date_leb current end_date) eqn:E.
  - apply date_leb_le in E; [| assumption | assumption].
    rewrite add_days_value by (assumption || lia). cbn [bind].
    assert (Hv' : valid_date (ord2ymd (toordinal current + 1)))
      by (apply ord2ymd_valid; lia).
    rewrite IH by (try assumption; rewrite toordinal_ord2ymd by lia; lia).
    rewrite toordinal_ord2ymd by lia.
    replace (Z.to_nat (toordinal end_date + 1 - toordinal current))
      with (S (Z.to_nat (toordinal end_date + 1 - (toordinal current + 1))))
      by lia.
    rewrite day_windows_S, ord2ymd_toordinal by assumption.
    rewrite <- app_assoc. reflexivity.
  - apply date_leb_false in E; [| assumption | assumption].
    replace (Z.to_nat (toordinal end_date + 1 - toordinal current)) with O by lia.
    unfold day_windows. cbn [seq map]. now rewrite app_nil_r.
Qed.

Lemma week_intervals_closed (fuel : nat) (current : date) (acc : list window) :
  valid_date current ->
  (toordinal end_date < toordinal current \/
   toordinal current +
   7 * ((toordinal end_date - toordinal current + 7) / 7) <= MAXORDINAL) ->
  (Z.to_nat (toordinal end_date + 1 - toordinal current) < fuel)%nat ->
  week_intervals fuel current end_date acc =
  Return (acc ++ week_windows (toordinal current)
                   (Z.to_nat ((toordinal end_date - toordinal current + 7) / 7))).
Proof.
  revert current acc.
  induction fuel as [| fuel IH]; intros current acc Hv Hmax Hf; [lia |].
  cbn [week_intervals].
  pose proof (toordinal_range _ Hv) as Hr.
  pose proof (toordinal_range _ end_valid) as Hre.
  destruct (date_leb current end_date) eqn:E.
  - apply date_leb_le in E; [| assumption | assumption].
    assert (Hk : (toordinal end_date - toordinal current + 7) / 7 =
                 (toordinal end_date - (toordinal current + 7) + 7) / 7 + 1).
    { replace (toordinal end_date - toordinal current + 7)
        with (toordinal end_date - (toordinal current + 7) + 7 + 1 * 7) by lia.
      apply Z.div_add. lia. }
    assert (Hk0 : 0 <= (toordinal end_date - (toordinal current + 7) + 7) / 7)
      by (apply Z.div_pos; lia).
    destruct Hmax as [Hmax | Hmax]; [lia |].
    rewrite !add_days_value by (assumption || lia). cbn [bind].
    assert (Hv' : valid_date (ord2ymd (toordinal current + 7)))
      by (apply ord2ymd_valid; lia).
    rewrite IH; try assumption; rewrite toordinal_ord2ymd by lia.
    + replace (Z.to_nat ((toordinal end_date - toordinal current + 7) / 7))
        with (S (Z.to_nat ((toordinal end_date - (toordinal current + 7) + 7) / 7)))
        by lia.
      rewrite week_windows_S, ord2ymd_toordinal by assumption.
      rewrite <- app_assoc. reflexivity.
    + destruct (Z_lt_le_dec (toordinal end_date) (toordinal current + 7));
        [left; assumption | right; lia].
    + lia.
  - apply date_leb_false in E; [| assumption | assumption].
    replace (Z.to_nat ((toordinal end_date - toordinal current + 7) / 7)) with O.
    + unfold week_windows. cbn [seq map]. now rewrite app_nil_r.
    + assert ((toordinal end_date - toordinal current + 7) / 7 <= 0).
      { apply Z.lt_succ_r. apply Z.div_lt_upper_bound; lia. }
      lia.
Qed.

End Shapes.

Lemma week_windows_span (from : Z) (k : nat) :
  1 <= from ->
  Forall (fun w => toordinal (fst w) + 6 = toordinal (snd w)) (week_windows from k).
Proof.
  intros Hf. unfold week_windows. apply Forall_forall. intros w Hw.
  apply in_map_iff in Hw as (i & <- & _). cbn [fst snd].
  rewrite !toordinal_ord2ymd by lia. lia.
Qed.

Lemma week_windows_last (from : Z) (k : nat) :
  week_windows from (S k) =
  week_windows from k ++
  [(ord2ymd (from + 7 * Z.of_nat k), ord2ymd (from + 7 * Z.of_nat k + 6))].
Proof. unfold week_windows. rewrite seq_S, map_app. reflexivity. Qed.

Lemma day_windows_single (from : Z) (k : nat) :
  Forall (fun w => fst w = snd w) (day_windows from k).
Proof.
  unfold day_windows. induction (seq 0 k) as [| i l IH]; constructor.
  - exact (eq_refl (ord2ymd (from + Z.of_nat i))).
  - exact IH.
Qed.

(** X7.  At day granularity the construction needs no alignment: for any
    two dates with [end_date] before the last date there is, it returns
    one interval per day from [start_date] to [end_date], each with equal
    ends, and none at all when [end_date] is before [start_date]. *)
Theorem day_intervals_are_the_days (start_date end_date : date) :
  valid_date start_date -> valid_date end_date -> end_date <> date_max ->
  exists l,
    build_intervals Day start_date end_date = Return l /\
    l = day_windows (toordinal start_date)
          (Z.to_nat (toordinal end_date - toordinal start_date + 1)) /\
    Z.of_nat (List.length l) =
    Z.max 0 (toordinal end_date - toordinal start_date + 1) /\
    Forall (fun w => fst w = snd w) l.
Proof.
  intros Hs He Hmax. pose proof (before_date_max _ He Hmax) as Hlt.
  exists (day_windows (toordinal start_date)
            (Z.to_nat (toordinal end_date - toordinal start_date + 1))).
  split; [| split; [reflexivity | split]].
  - unfold build_intervals, loop_bound.
    rewrite (day_intervals_closed end_date He) by (assumption || lia).
    replace (toordinal end_date + 1 - toordinal start_date)
      with (toordinal end_date - toordinal start_date + 1) by lia.
    reflexivity.
  - unfold day_windows. rewrite length_map, length_seq. lia.
  - apply day_windows_single.
Qed.

Lemma day_intervals_are_the_days_witness :
  (valid_date (mkdate 2024 2 27) /\ valid_date (mkdate 2024 3 2)) /\
  exists l,
    build_intervals Day (mkdate 2024 2 27) (mkdate 2024 3 2) = Return l /\
    l = day_windows (toordinal (mkdate 2024 2 27))
          (Z.to_nat (toordinal (mkdate 2024 3 2) - toordinal (mkdate 2024 2 27) + 1)) /\
    Z.of_nat (List.length l) =
    Z.max 0 (toordinal (mkdate 2024 3 2) - toordinal (mkdate 2024 2 27) + 1) /\
    Forall (fun w => fst w = snd w) l.
Proof.
  assert (V1 : valid_date (mkdate 2024 2 27)) by (vm_compute; intuition discriminate).
  assert (V2 : valid_date (mkdate 2024 3 2)) by (vm_compute; intuition discriminate).
  split; [split; assumption |].
  apply (day_intervals_are_the_days (mkdate 2024 2 27) (mkdate 2024 3 2) V1 V2).
  discriminate.
Defined.

(** X8.  At week granularity the construction on its own does not look at
    the weekday: from any [start_date <= end_date] (a week short of the end
    of the calendar) it returns windows of seven days, the first starting at
    [start_date], and the last one ends on [end_date] or up to six days
    after it. *)
Theorem week_intervals_unaligned (start_date end_date : date) :
  valid_date start_date -> valid_date end_date ->
  date_leb start_date end_date = true ->
  toordinal end_date + 7 <= MAXORDINAL ->
  exists front w,
    build_intervals Week start_date end_date = Return (front ++ [w]) /\
    front ++ [w] =
    week_windows (toordinal start_date)
      (Z.to_nat ((toordinal end_date - toordinal start_date) / 7 + 1)) /\
    Forall (fun w' => toordinal (fst w') + 6 = toordinal (snd w')) (front ++ [w]) /\
    (exists rest, front ++ [w] = (start_date, ord2ymd (toordinal start_date + 6)) :: rest) /\
    toordinal end_date <= toordinal (snd w) <= toordinal end_date + 6.
Proof.
  intros Hs He Hle Hmax.
  apply date_leb_le in Hle; [| assumption | assumption].
  pose proof (toordinal_range _ Hs) as Hrs.
  set (q := (toordinal end_date - toordinal start_date) / 7).
  assert (Hq : 0 <= q) by (apply Z.div_pos; lia).
  assert (Hqb : 7 * q <= toordinal end_date - toordinal start_date < 7 * q + 7).
  { subst q. pose proof (Z.div_mod (toordinal end_date - toordinal start_date) 7 ltac:(lia)).
    pose proof (Z.mod_pos_bound (toordinal end_date - toordinal start_date) 7 ltac:(lia)).
    lia. }
  assert (Hk : (toordinal end_date - toordinal start_date + 7) / 7 = q + 1).
  { subst q.
    replace (toordinal end_date - toordinal start_date + 7)
      with (toordinal end_date - toordinal start_date + 1 * 7) by lia.
    apply Z.div_add. lia. }
  assert (Hb : build_intervals Week start_date end_date =
               Return (week_windows (toordinal start_date) (Z.to_nat (q + 1)))).
  { unfold build_intervals, loop_bound.
    rewrite (week_intervals_closed end_date He); try assumption.
    - cbn [app]. rewrite Hk. reflexivity.
    - right. rewrite Hk. lia.
    - lia. }
  replace (Z.to_nat (q + 1)) with (S (Z.to_nat q)) in * by lia.
  rewrite week_windows_last in Hb.
  eexists _, _. split; [exact Hb |].
  split; [symmetry; apply week_windows_last |].
  split; [rewrite <- week_windows_last; apply week_windows_span; lia |].
  split.
  - rewrite <- week_windows_last, week_windows_S, ord2ymd_toordinal by assumption.
    eexists. reflexivity.
  - cbn [snd]. rewrite toordinal_ord2ymd by lia. lia.
Qed.

Lemma week_intervals_unaligned_witness :
  (valid_date (mkdate 2024 6 3) /\ valid_date (mkdate 2024 6 12) /\
   date_leb (mkdate 2024 6 3) (mkdate 2024 6 12) = true /\
   toordinal (mkdate 2024 6 12) + 7 <= MAXORDINAL) /\
  exists front w,
    build_intervals Week (mkdate 2024 6 3) (mkdate 2024 6 12) =
    Return (front ++ [w]) /\
    front ++ [w] =
    week_windows (toordinal (mkdate 2024 6 3))
      (Z.to_nat ((toordinal (mkdate 2024 6 12) - toordinal (mkdate 2024 6 3)) / 7 + 1)) /\
    Forall (fun w' => toordinal (fst w') + 6 = toordinal (snd w')) (front ++ [w]) /\
    (exists rest, front ++ [w] =
                  (mkdate 2024 6 3, ord2ymd (toordinal (mkdate 2024 6 3) + 6)) :: rest) /\
    toordinal (mkdate 2024 6 12) <= toordinal (snd w) <= toordinal (mkdate 2024 6 12) + 6.
Proof.
  assert (V1 : valid_date (mkdate 2024 6 3)) by (vm_compute; intuition discriminate).
  assert (V2 : valid_date (mkdate 2024 6 12)) by (vm_compute; intuition discriminate).
  split.
  - split; [exact V1 | split; [exact V2 | split; [reflexivity |]]].
    vm_compute. discriminate.
  - apply (week_intervals_unaligned (mkdate 2024 6 3) (mkdate 2024 6 12) V1 V2).
    + reflexivity.
    + vm_compute. discriminate.
Defined.

(** X9.  On a week range that passed the alignment check every interval
    runs from a Sunday to the Saturday after it, and there are as many
    intervals as the range has whole weeks. *)
Theorem aligned_weeks_are_sunday_to_saturday (start_date end_date : date) :
  valid_date start_date -> valid_date end_date ->
  date_leb start_date end_date = true ->
  validate_interval_alignment Week start_date end_date = Return tt ->
  exists l,
    build_intervals Week start_date end_date = Return l /\
    7 * Z.of_nat (List.length l) = toordinal end_date - toordinal start_date + 1 /\
    Forall (fun w => weekday (fst w) = 6 /\ weekday (snd w) = 5 /\
                     toordinal (fst w) + 6 = toordinal (snd w)) l.
Proof.
  intros Hs He Hle Hval.
  apply date_leb_le in Hle; [| assumption | assumption].
  pose proof (toordinal_range _ Hs) as Hrs.
  pose proof (toordinal_range _ He) as Hre.
  cbn [validate_interval_alignment] in Hval.
  destruct (negb (weekday start_date =? 6) || negb (weekday end_date =? 5))
    eqn:E; [discriminate |].
  apply orb_false_iff in E. rewrite !negb_false_iff, !Z.eqb_eq in E.
  destruct E as [E1 E2]. unfold weekday in E1, E2.
  set (s := toordinal start_date) in *. set (e := toordinal end_date) in *.
  assert (Hdiv : exists q, e - s + 7 = 7 * q + 6 /\ 1 <= q).
  { exists ((e - s + 7) / 7). unfold MAXORDINAL in *.
    Z.div_mod_to_equations. lia. }
  destruct Hdiv as (q & Hq & Hq1).
  assert (Hk : (e - s + 7) / 7 = q).
  { rewrite Hq. rewrite Z.mul_comm, Z.div_add_l by lia.
    replace (6 / 7) with 0 by reflexivity. lia. }
  exists (week_windows s (Z.to_nat q)). split; [| split].
  - unfold build_intervals, loop_bound.
    rewrite (week_intervals_closed end_date He); try assumption; fold s e.
    + cbn [app]. rewrite Hk. reflexivity.
    + right. rewrite Hk. unfold MAXORDINAL in *. Z.div_mod_to_equations. lia.
    + lia.
  - unfold week_windows. rewrite length_map, length_seq. lia.
  - unfold week_windows. apply Forall_forall. intros w Hw.
    apply in_map_iff in Hw as (i & <- & Hi). cbn [fst snd].
    unfold weekday. rewrite !toordinal_ord2ymd by lia.
    repeat split; try lia.
    + replace (s + 7 * Z.of_nat i + 6) with (s + 6 + Z.of_nat i * 7) by lia.
      rewrite Z.mod_add by lia. exact E1.
    + replace (s + 7 * Z.of_nat i + 6 + 6) with (s + 6 + 6 + Z.of_nat i * 7) by lia.
      rewrite Z.mod_add by lia. Z.div_mod_to_equations. lia.
Qed.

Lemma aligned_weeks_are_sunday_to_saturday_witness :
  (valid_date (mkdate 2024 6 2) /\ valid_date (mkdate 2024 6 15) /\
   date_leb (mkdate 2024 6 2) (mkdate 2024 6 15) = true /\
   validate_interval_alignment Week (mkdate 2024 6 2) (mkdate 2024 6 15) = Return tt) /\
  exists l,
    build_intervals Week (mkdate 2024 6 2) (mkdate 2024 6 15) = Return l /\
    7 * Z.of_nat (List.length l) =
    toordinal (mkdate 2024 6 15) - toordinal (mkdate 2024 6 2) + 1 /\
    Forall (fun w => weekday (fst w) = 6 /\ weekday (snd w) = 5 /\
                     toordinal (fst w) + 6 = toordinal (snd w)) l.
Proof.
  assert (V1 : valid_date (mkdate 2024 6 2)) by (vm_compute; intuition discriminate).
  assert (V2 : valid_date (mkdate 2024 6 15)) by (vm_compute; intuition discriminate).
  split.
  - split; [exact V1 | split; [exact V2 | split; reflexivity]].
  - apply (aligned_weeks_are_sunday_to_saturday (mkdate 2024 6 2) (mkdate 2024 6 15) V1 V2);
      reflexivity.
Defined.

(* ------------------------------------------------------------------ *)
(** ** Month steps *)

Lemma days_before_month_12 (y : Z) :
  days_before_month y 12 + 31 = days_in_year y.
Proof.
  unfold days_before_month, days_in_year. destruct (is_leap y); reflexivity.
Qed.

Lemma days_before_month_1 (y : Z) : days_before_month y 1 = 0.
Proof. unfold days_before_month. destruct (is_leap y); reflexivity. Qed.

Lemma days_in_month_12 (y : Z) : days_in_month y 12 = 31.
Proof. unfold days_in_month. destruct (is_leap y); reflexivity. Qed.

Lemma days_in_month_1 (y : Z) : days_in_month y 1 = 31.
Proof. unfold days_in_month. destruct (is_leap y); reflexivity. Qed.

(** The ordinal of the date one month on, next to the ordinal of [d]. *)
Lemma next_month_date_ordinal (d : date) :
  valid_date d ->
  let '(y, m) := next_ym (year d) (month d) in
  toordinal (next_month_date d) + day d =
  toordinal d + days_in_month (year d) (month d) +
  Z.min (day d) (days_in_month y m).
Proof.
  intros (Hy & Hm & Hd). unfold next_month_date, next_ym.
  destruct (Z.eqb_spec (month d) 12) as [E | N].
  - unfold toordinal, ymd2ord. cbn [year month day].
    rewrite E in *. rewrite days_before_year_succ, days_before_month_1.
    pose proof (days_before_month_12 (year d)).
    rewrite days_in_month_12 in *. lia.
  - unfold toordinal, ymd2ord. cbn [year month day].
    rewrite days_before_month_next by lia. lia.
Qed.

Lemma add_one_month_step (d r : date) :
  valid_date d -> add_one_month d = Return r ->
  28 <= toordinal r - toordinal d <= 31.
Proof.
  intros Hv Hr. destruct (add_one_month_Return _ _ Hv Hr) as (-> & Hvr & _ & _).
  pose proof (next_month_date_ordinal d Hv) as H.
  pose proof Hv as (Hy & Hm & Hd).
  pose proof (days_in_month_pos (year d) (month d) Hm) as Hdim.
  unfold next_ym in H.
  destruct (Z.eqb_spec (month d) 12) as [E | N].
  - rewrite days_in_month_1 in H. lia.
  - pose proof (days_in_month_pos (year d) (month d + 1) ltac:(lia)). lia.
Qed.

Lemma months_later_valid (k : nat) (d r : date) :
  valid_date d -> months_later k d = Return r ->
  valid_date r /\ toordinal d + 28 * Z.of_nat k <= toordinal r.
Proof.
  revert d. induction k as [| k IH]; intros d Hv H.
  - injection H as <-. split; [exact Hv | lia].
  - cbn [months_later] in H. apply bind_Return_inv in H as (n & Hn & H).
    destruct (add_one_month_Return _ _ Hv Hn) as (_ & Hvn & _ & _).
    pose proof (add_one_month_step _ _ Hv Hn).
    destruct (IH n Hvn H) as [Hvr Hle]. split; [exact Hvr | lia].
Qed.

Section MonthCheck.

Variable end_date : date.
Hypothesis end_valid : valid_date end_date.

Lemma advance_months_walk (fuel : nat) (current landing : date) :
  advance_months fuel current end_date = Return landing ->
  exists k, months_later k current = Return landing.
Proof.
  revert current. induction fuel as [| fuel IH]; intros current H;
    [discriminate |].
  cbn [advance_months] in H.
  destruct (date_ltb current end_date).
  - apply bind_Return_inv in H as (n & Hn & H).
    destruct (IH n H) as (k & Hk). exists (S k).
    cbn [months_later]. rewrite Hn. exact Hk.
  - injection H as <-. exists O. reflexivity.
Qed.

Lemma walk_advance_months (k : nat) (fuel : nat) (current landing : date) :
  valid_date current ->
  months_later k current = Return landing ->
  toordinal landing = toordinal end_date + 1 ->
  (Z.to_nat (toordinal end_date - toordinal current) < fuel)%nat ->
  advance_months fuel current end_date = Return landing.
Proof.
  revert fuel current.
  induction k as [| k IH]; intros fuel current Hv Hw Hland Hf;
    (destruct fuel as [| fuel]; [lia |]); cbn [advance_months].
  - injection Hw as <-.
    replace (date_ltb current end_date) with false; [reflexivity |].
    symmetry. apply not_true_is_false. intros L.
    apply date_ltb_lt in L; [lia | assumption | assumption].
  - cbn [months_later] in Hw. apply bind_Return_inv in Hw as (n & Hn & Hw).
    destruct (add_one_month_Return _ _ Hv Hn) as (_ & Hvn & _ & _).
    pose proof (add_one_month_step _ _ Hv Hn) as Hstep.
    destruct (months_later_valid _ _ _ Hvn Hw) as [_ Hge].
    replace (date_ltb current end_date) with true.
    + rewrite Hn. cbn [bind]. apply (IH fuel n); try assumption. lia.
    + symmetry. apply date_ltb_lt; [assumption | assumption | lia].
Qed.

End MonthCheck.

Lemma month_check_iff_aux (start_date end_date : date) :
  valid_date start_date -> valid_date end_date ->
  date_leb start_date end_date = true ->
  (validate_interval_alignment Month start_date end_date = Return tt <->
   exists k landing,
     months_later k start_date = Return landing /\
     add_days end_date 1 = Return landing).
Proof.
  intros Hs He Hle. apply date_leb_le in Hle; [| assumption | assumption].
  cbn [validate_interval_alignment]. split.
  - intros H. apply bind_Return_inv in H as (landing & Hadv & H).
    apply bind_Return_inv in H as (limit & Hlim & H).
    destruct (negb (date_eqb landing limit)) eqn:E; [discriminate |].
    apply negb_false_iff, date_eqb_eq in E. subst limit.
    destruct (advance_months_walk _ _ _ _ Hadv) as (k & Hk).
    exists k, landing. split; assumption.
  - intros (k & landing & Hk & Hlim).
    destruct (add_days_Return _ _ _ He Hlim) as (Hvl & Hol).
    rewrite (walk_advance_months end_date He k _ start_date landing);
      try assumption; [| unfold loop_bound; lia].
    cbn [bind]. rewrite Hlim. cbn [bind].
    replace (date_eqb landing landing) with true
      by (symmetry; apply date_eqb_eq; reflexivity).
    reflexivity.
Qed.

(** X10.  For [start_date <= end_date] the month check accepts exactly
    when some number of [add_one_month] steps from [start_date], none of
    them raising, arrives on the day after [end_date]. *)
Theorem month_check_accepts_iff (start_date end_date : date) :
  valid_date start_date -> valid_date end_date ->
  date_leb start_date end_date = true ->
  (validate_interval_alignment Month start_date end_date = Return tt <->
   exists k landing,
     months_later k start_date = Return landing /\
     add_days end_date 1 = Return landing).
Proof. exact (month_check_iff_aux start_date end_date). Qed.

Lemma month_check_accepts_iff_witness :
  (valid_date (mkdate 2024 1 31) /\ valid_date (mkdate 2024 3 28) /\
   date_leb (mkdate 2024 1 31) (mkdate 2024 3 28) = true) /\
  (validate_interval_alignment Month (mkdate 2024 1 31) (mkdate 2024 3 28) =
   Return tt <->
   exists k landing,
     months_later k (mkdate 2024 1 31) = Return landing /\
     add_days (mkdate 2024 3 28) 1 = Return landing).
Proof.
  assert (V1 : valid_date (mkdate 2024 1 31)) by (vm_compute; intuition discriminate).
  assert (V2 : valid_date (mkdate 2024 3 28)) by (vm_compute; intuition discriminate).
  split; [split; [exact V1 | split; [exact V2 | reflexivity]] |].
  apply (month_check_accepts_iff (mkdate 2024 1 31) (mkdate 2024 3 28) V1 V2).
  reflexivity.
Defined.

(** X11.  Outside November and December 9999 [add_one_month] returns the
    same day of the next month, clamped to the length of that month; the
    result is a valid date between 28 and 31 days later. *)
Theorem add_one_month_next_month (d : date) :
  valid_date d -> month d <> 11 -> ~ (year d = MAXYEAR /\ month d = 12) ->
  add_one_month d = Return (next_month_date d) /\
  valid_date (next_month_date d) /\
  28 <= toordinal (next_month_date d) - toordinal d <= 31.
Proof.
  intros Hv Hnov Hmax.
  destruct (add_one_month_ok d Hv Hnov Hmax) as (Ho & Hv' & _).
  split; [exact Ho | split; [exact Hv' |]].
  exact (add_one_month_step d _ Hv Ho).
Qed.

Lemma add_one_month_next_month_witness :
  (valid_date (mkdate 2023 1 31) /\ month (mkdate 2023 1 31) <> 11 /\
   ~ (year (mkdate 2023 1 31) = MAXYEAR /\ month (mkdate 2023 1 31) = 12)) /\
  add_one_month (mkdate 2023 1 31) = Return (next_month_date (mkdate 2023 1 31)).
Proof.
  assert (V : valid_date (mkdate 2023 1 31)) by (vm_compute; intuition discriminate).
  assert (N : month (mkdate 2023 1 31) <> 11) by (cbn; discriminate).
  assert (M : ~ (year (mkdate 2023 1 31) = MAXYEAR /\ month (mkdate 2023 1 31) = 12))
    by (cbn; intros [_ H]; discriminate).
  split; [split; [exact V | split; [exact N | exact M]] |].
  apply (add_one_month_next_month (mkdate 2023 1 31) V N M).
Defined.

(** X12.  The month check does not ask for the first of a month: from any
    day, the range up to the day before [add_one_month] of it passes. *)
Theorem month_check_accepts_one_step (start_date next end_date : date) :
  valid_date start_date ->
  add_one_month start_date = Return next ->
  add_days next (-1) = Return end_date ->
  validate_interval_alignment Month start_date end_date = Return tt.
Proof.
  intros Hs Hn He.
  destruct (add_one_month_Return _ _ Hs Hn) as (_ & Hvn & _ & _).
  pose proof (add_one_month_step _ _ Hs Hn) as Hstep.
  destruct (add_days_Return _ _ _ Hvn He) as (Hve & Hoe).
  pose proof (toordinal_range _ Hvn) as Hrn.
  apply month_check_iff_aux; try assumption.
  - apply date_leb_le; [assumption | assumption | lia].
  - exists 1%nat, next. split.
    + cbn [months_later]. rewrite Hn. reflexivity.
    + rewrite add_days_value by (assumption || lia).
      f_equal. replace (toordinal end_date + 1) with (toordinal next) by lia.
      apply ord2ymd_toordinal, Hvn.
Qed.

Lemma month_check_accepts_one_step_witness :
  (valid_date (mkdate 2024 1 15) /\
   add_one_month (mkdate 2024 1 15) = Return (mkdate 2024 2 15) /\
   add_days (mkdate 2024 2 15) (-1) = Return (mkdate 2024 2 14)) /\
  validate_interval_alignment Month (mkdate 2024 1 15) (mkdate 2024 2 14) =
  Return tt.
Proof.
  assert (V : valid_date (mkdate 2024 1 15)) by (vm_compute; intuition discriminate).
  split; [split; [exact V | split; reflexivity] |].
  apply (month_check_accepts_one_step (mkdate 2024 1 15) (mkdate 2024 2 15)
           (mkdate 2024 2 14) V); reflexivity.
Defined.

Lemma month_end_valid (d : date) : valid_date d -> valid_date (month_end d).
Proof.
  intros (Hy & Hm & Hd). unfold month_end, valid_date. cbn [year month day].
  pose proof (days_in_month_pos (year d) (month d) Hm). lia.
Qed.

Lemma first_of_month_step (d n : date) :
  valid_date d -> day d = 1 -> add_one_month d = Return n ->
  day n = 1 /\ add_days n (-1) = Return (month_end d).
Proof.
  intros Hv Hd1 Hn.
  destruct (add_one_month_Return _ _ Hv Hn) as (-> & Hvn & _ & _).
  pose proof (next_month_date_ordinal d Hv) as Ho.
  pose proof Hv as (Hy & Hm & Hd).
  assert (Hday : day (next_month_date d) = 1).
  { unfold next_month_date, next_ym.
    destruct (Z.eqb_spec (month d) 12) as [E | N]; cbn [day].
    - rewrite days_in_month_1. lia.
    - destruct (Z.eq_dec (month d) 11) as [E11 | N11].
      + rewrite add_one_month_november in Hn by exact E11. discriminate.
      + pose proof (days_in_month_pos (year d) (month d + 1) ltac:(lia)). lia. }
  split; [exact Hday |].
  assert (Hord : toordinal (next_month_date d) + -1 = toordinal (month_end d)).
  { unfold next_ym in Ho.
    assert (Hmin : forall x, 28 <= x -> Z.min (day d) x = 1) by (intros; lia).
    destruct (Z.eqb_spec (month d) 12) as [E | N].
    - rewrite Hmin in Ho by (rewrite days_in_month_1; lia).
      unfold month_end, toordinal, ymd2ord in *. cbn [year month day] in *. lia.
    - destruct (Z.eq_dec (month d) 11) as [E11 | N11].
      + rewrite add_one_month_november in Hn by exact E11. discriminate.
      + rewrite Hmin in Ho
          by (pose proof (days_in_month_pos (year d) (month d + 1) ltac:(lia)); lia).
        unfold month_end, toordinal, ymd2ord in *. cbn [year month day] in *. lia. }
  pose proof (month_end_valid d Hv) as Hvm.
  pose proof (toordinal_range _ Hvm) as Hrm.
  rewrite add_days_value by (assumption || lia).
  rewrite Hord. f_equal. apply ord2ymd_toordinal, Hvm.
Qed.

Section MonthShape.

Variable end_date : date.
Hypothesis end_valid : valid_date end_date.

Lemma month_intervals_walk (fuel : nat) (current landing : date)
    (acc : list window) :
  valid_date current ->
  advance_months fuel current end_date = Return landing ->
  toordinal landing = toordinal end_date + 1 ->
  exists l,
    month_intervals fuel current end_date acc = Return (acc ++ l) /\
    months_later (List.length l) current = Return landing /\
    Forall (fun w => exists n, add_one_month (fst w) = Return n /\
                               add_days n (-1) = Return (snd w)) l /\
    (day current = 1 ->
     Forall (fun w => day (fst w) = 1 /\ snd w = month_end (fst w)) l).
Proof.
  revert current acc.
  induction fuel as [| fuel IH]; intros current acc Hv Hadv Hland;
    [discriminate |].
  cbn [advance_months] in Hadv. cbn [month_intervals].
  destruct (date_ltb current end_date) eqn:E.
  - apply date_ltb_lt in E; [| assumption | assumption].
    apply bind_Return_inv in Hadv as (next & Hnext & Hadv).
    destruct (add_one_month_Return _ _ Hv Hnext) as (_ & Hv' & Hlt & _).
    replace (date_leb current end_date) with true
      by (symmetry; apply date_leb_le; [assumption | assumption | lia]).
    rewrite Hnext. cbn [bind].
    pose proof (toordinal_range _ Hv) as Hr.
    pose proof (toordinal_range _ Hv') as Hr'.
    rewrite add_days_value by (assumption || lia). cbn [bind].
    destruct (IH next (acc ++ [(current, ord2ymd (toordinal next + -1))])
                Hv' Hadv Hland) as (l & -> & Hwalk & Hall & Hfirst).
    exists ((current, ord2ymd (toordinal next + -1)) :: l).
    rewrite <- app_assoc. split; [reflexivity |].
    split; [| split].
    + cbn [List.length months_later]. rewrite Hnext. exact Hwalk.
    + constructor; [| exact Hall]. exists next. cbn [fst snd].
      split; [exact Hnext | apply add_days_value; assumption || lia].
    + intros Hd1.
      destruct (first_of_month_step _ _ Hv Hd1 Hnext) as (Hn1 & Hend).
      constructor; [| exact (Hfirst Hn1)]. cbn [fst snd].
      split; [exact Hd1 |].
      rewrite add_days_value in Hend by (assumption || lia).
      injection Hend as Hend. exact Hend.
  - injection Hadv as <-.
    replace (date_leb current end_date) with false.
    + exists []. rewrite app_nil_r. repeat split; constructor.
    + symmetry. apply not_true_is_false. intros L.
      apply date_leb_le in L; [lia | assumption | assumption].
Qed.

End MonthShape.

Lemma validate_month_Return (start_date end_date : date) :
  valid_date end_date ->
  validate_interval_alignment Month start_date end_date = Return tt ->
  exists landing,
    advance_months (loop_bound start_date end_date) start_date end_date =
    Return landing /\
    add_days end_date 1 = Return landing /\
    toordinal landing = toordinal end_date + 1.
Proof.
  intros He H. cbn [validate_interval_alignment] in H.
  apply bind_Return_inv in H as (landing & Hadv & H).
  apply bind_Return_inv in H as (limit & Hlim & H).
  destruct (negb (date_eqb landing limit)) eqn:E; [discriminate |].
  apply negb_false_iff, date_eqb_eq in E. subst limit.
  destruct (add_days_Return _ _ _ He Hlim) as (_ & Ho).
  exists landing. repeat split; assumption.
Qed.

(** X13.  On a month range that passed the check, each interval ends on
    the day before [add_one_month] of its start, and the number of
    intervals is the number of [add_one_month] steps from [start_date] to
    the day after [end_date]. *)
Theorem month_intervals_follow_the_steps (start_date end_date : date) :
  valid_date start_date -> valid_date end_date ->
  validate_interval_alignment Month start_date end_date = Return tt ->
  exists l landing,
    build_intervals Month start_date end_date = Return l /\
    add_days end_date 1 = Return landing /\
    months_later (List.length l) start_date = Return landing /\
    Forall (fun w => exists n, add_one_month (fst w) = Return n /\
                               add_days n (-1) = Return (snd w)) l.
Proof.
  intros Hs He Hval.
  destruct (validate_month_Return _ _ He Hval) as (landing & Hadv & Hlim & Ho).
  destruct (month_intervals_walk end_date He _ start_date landing [] Hs Hadv Ho)
    as (l & Hb & Hwalk & Hall & _).
  exists l, landing. repeat split; assumption.
Qed.

Lemma month_intervals_follow_the_steps_witness :
  (valid_date (mkdate 2024 1 31) /\ valid_date (mkdate 2024 3 28) /\
   validate_interval_alignment Month (mkdate 2024 1 31) (mkdate 2024 3 28) =
   Return tt) /\
  exists l landing,
    build_intervals Month (mkdate 2024 1 31) (mkdate 2024 3 28) = Return l /\
    add_days (mkdate 2024 3 28) 1 = Return landing /\
    months_later (List.length l) (mkdate 2024 1 31) = Return landing /\
    Forall (fun w => exists n, add_one_month (fst w) = Return n /\
                               add_days n (-1) = Return (snd w)) l.
Proof.
  assert (V1 : valid_date (mkdate 2024 1 31)) by (vm_compute; intuition discriminate).
  assert (V2 : valid_date (mkdate 2024 3 28)) by (vm_compute; intuition discriminate).
  split; [split; [exact V1 | split; [exact V2 | vm_compute; reflexivity]] |].
  apply (month_intervals_follow_the_steps (mkdate 2024 1 31) (mkdate 2024 3 28) V1 V2).
  vm_compute; reflexivity.
Defined.

(** X14.  On a month range that passed the check and starts on the first
    of a month, every interval is a whole calendar month: it starts on a
    first and ends on the last day of the same month. *)
Theorem month_intervals_are_calendar_months (start_date end_date : date) :
  valid_date start_date -> valid_date end_date ->
  day start_date = 1 ->
  validate_interval_alignment Month start_date end_date = Return tt ->
  exists l,
    build_intervals Month start_date end_date = Return l /\
    Forall (fun w => day (fst w) = 1 /\ snd w = month_end (fst w)) l.
Proof.
  intros Hs He Hd1 Hval.
  destruct (validate_month_Return _ _ He Hval) as (landing & Hadv & Hlim & Ho).
  destruct (month_intervals_walk end_date He _ start_date landing [] Hs Hadv Ho)
    as (l & Hb & _ & _ & Hall).
  exists l. split; [exact Hb | exact (Hall Hd1)].
Qed.

Lemma month_intervals_are_calendar_months_witness :
  (valid_date (mkdate 2023 12 1) /\ valid_date (mkdate 2024 2 29) /\
   day (mkdate 2023 12 1) = 1 /\
   validate_interval_alignment Month (mkdate 2023 12 1) (mkdate 2024 2 29) =
   Return tt) /\
  exists l,
    build_intervals Month (mkdate 2023 12 1) (mkdate 2024 2 29) = Return l /\
    Forall (fun w => day (fst w) = 1 /\ snd w = month_end (fst w)) l.
Proof.
  assert (V1 : valid_date (mkdate 2023 12 1)) by (vm_compute; intuition discriminate).
  assert (V2 : valid_date (mkdate 2024 2 29)) by (vm_compute; intuition discriminate).
  split; [split; [exact V1 | split; [exact V2 | split; [reflexivity | vm_compute; reflexivity]]] |].
  apply (month_intervals_are_calendar_months (mkdate 2023 12 1) (mkdate 2024 2 29) V1 V2).
  - reflexivity.
  - vm_compute; reflexivity.
Defined.

(* ------------------------------------------------------------------ *)
(** ** Bounds on the rates *)

Lemma percent_pos (count total : Z) :
  0 < total ->
  percent count total == (100 * count # Z.to_pos total)%Q.
Proof.
  intros Ht. unfold percent.
  replace (0 <? total) with true by (symmetry; apply Z.ltb_lt; exact Ht).
  destruct total as [| p | p]; try lia.
  unfold Qeq, Qdiv, Qmult, Qinv, inject_Z. cbn [Qnum Qden Z.to_pos].
  lia.
Qed.

Lemma percent_le_100 (count total : Z) :
  count <= total -> (percent count total <= 100)%Q.
Proof.
  intros Hc. destruct (Z_lt_le_dec 0 total) as [Ht | Ht].
  - rewrite percent_pos by exact Ht.
    unfold Qle. cbn [Qnum Qden]. rewrite Z2Pos.id by exact Ht. lia.
  - unfold percent.
    replace (0 <? total) with false by (symmetry; apply Z.ltb_ge; exact Ht).
    discriminate.
Qed.


Lemma build_intervals6_eq
    (interval : granularity) (start_date end_date : date) :
  build_intervals6 interval start_date end_date =
  build_intervals interval start_date end_date.
Proof.
  unfold build_intervals6, build_intervals. destruct interval.
  - apply day_intervals6_eq.
  - apply week_intervals6_eq.
  - apply month_intervals6_eq.
Qed.

Section RunBounds.

Variable breakdown :
  window -> list metric -> option string -> outcome (list item).
Variable aggregate :
  window -> option string -> option string -> outcome (option Z).
Variable interval : granularity.
Variables start_date end_date : date.
Variable page_path : string.
Variable goals : list string.

(** X15.  A conversion rate never exceeds 100: in a run that returns, the
    rate of Section 5 and every rate of Section 6 are at most 100,
    whatever the backend answered. *)
Theorem conversion_rates_at_most_100 (r : report) :
  main breakdown aggregate interval start_date end_date page_path goals =
  Return r ->
  (snd (conversion r) <= 100)%Q /\
  Forall (fun row : Z * Z * Q => (snd row <= 100)%Q) (interval_rates r).
Proof.
  intros H. apply main_Return in H
    as (s1 & s5 & ivs & ivs6 & _ & _ & _ & _ & _ & _ & H5 & _ & H6 & Hr).
  apply section5_Return in H5 as (home & vals & _ & _ & Hs5).
  apply section6_loop_Return in H6 as (rows & Hrows & Hall6).
  cbn [app] in Hrows. rewrite Hr. cbn [conversion interval_rates]. split.
  - rewrite Hs5. cbn [snd]. apply percent_le_100. lia.
  - rewrite Hrows. clear Hrows Hr. induction Hall6 as [| w row ws rs Hw _ IH];
      constructor; [| exact IH].
    destruct Hw as (h & its & _ & _ & ->). cbn [snd].
    apply percent_le_100. lia.
Qed.


Lemma interval_visitors_below_site_aux (r : report) (site : option Z) :
  main breakdown aggregate interval start_date end_date page_path goals =
  Return r ->
  aggregate (start_date, end_date) None None = Return site ->
  Forall (fun row : Z * Z =>
            snd row <= total_goal_visitors r /\ snd row <= get_default site 0)
         (interval_lines r).
Proof.
  intros H Hsite. apply main_Return in H
    as (s1 & s5 & ivs & ivs6 & _ & _ & H1 & _ & _ & H3 & _ & _ & _ & Hr).
  apply section1_Return in H1 as (items & site' & _ & Ha & Ht & _).
  rewrite Hsite in Ha. injection Ha as <-.
  apply section3_loop_Return in H3 as (rows & Hrows & Hall).
  cbn [app] in Hrows. rewrite Hrows, Hr. cbn [total_goal_visitors].
  clear Hrows Hr. induction Hall as [| w row ws rs Hw _ IH];
    constructor; [| exact IH].
  destruct Hw as (its & _ & ->). cbn [snd]. lia.
Qed.

(** X17.  No interval of Section 3 shows more visitors than the whole
    range does, nor more than the site aggregate of the whole range. *)
Theorem interval_visitors_below_site (r : report) (site : option Z) :
  main breakdown aggregate interval start_date end_date page_path goals =
  Return r ->
  aggregate (start_date, end_date) None None = Return site ->
  Forall (fun row : Z * Z =>
            snd row <= total_goal_visitors r /\ snd row <= get_default site 0)
         (interval_lines r).
Proof. exact (interval_visitors_below_site_aux r site). Qed.

(** X18.  Sections 3 and 6 have one line per interval each. *)
Theorem one_line_per_interval (r : report) :
  main breakdown aggregate interval start_date end_date page_path goals =
  Return r ->
  exists intervals,
    build_intervals interval start_date end_date = Return intervals /\
    List.length (interval_lines r) = List.length intervals /\
    List.length (interval_rates r) = List.length intervals /\
    List.length (goal_lines r) = List.length (goal_visitor_map r).
Proof.
  intros H. apply main_Return in H
    as (s1 & s5 & ivs & ivs6 & _ & _ & _ & _ & Hb3 & H3 & _ & Hb6 & H6 & Hr).
  rewrite build_intervals6_eq, Hb3 in Hb6. injection Hb6 as <-.
  apply section3_loop_Return in H3 as (rows3 & Hrows3 & Hall3).
  apply section6_loop_Return in H6 as (rows6 & Hrows6 & Hall6).
  cbn [app] in Hrows3, Hrows6.
  exists ivs. split; [exact Hb3 |]. rewrite Hrows3, Hrows6.
  split; [symmetry; exact (Forall2_length Hall3) |].
  split; [symmetry; exact (Forall2_length Hall6) |].
  rewrite Hr. cbn [goal_lines goal_visitor_map]. unfold section4.
  rewrite length_map. symmetry. apply Permutation_length, sorted_desc_perm.
Qed.

Hypothesis breakdown_returns :
  forall w ms page, exists items, breakdown w ms page = Return items.
Hypothesis aggregate_returns :
  forall w goal page, exists v, aggregate w goal page = Return v.





End RunBounds.

Local Open Scope string_scope.

Lemma conversion_rates_at_most_100_witness :
  main signup_breakdown signup_aggregate Day
       (mkdate 2024 6 1) (mkdate 2024 6 2) "/" ["signup"] =
  Return signup_report /\
  (snd (conversion signup_report) <= 100)%Q.
Proof.
  split; [vm_compute; reflexivity |].
  apply (conversion_rates_at_most_100 signup_breakdown signup_aggregate Day
           (mkdate 2024 6 1) (mkdate 2024 6 2) "/" ["signup"] signup_report).
  vm_compute; reflexivity.
Defined.


Lemma interval_visitors_below_site_witness :
  (main signup_breakdown signup_aggregate Day
        (mkdate 2024 6 1) (mkdate 2024 6 2) "/" ["signup"] =
   Return signup_report /\
   signup_aggregate (mkdate 2024 6 1, mkdate 2024 6 2) None None =
   Return (Some 9)) /\
  Forall (fun row : Z * Z =>
            snd row <= total_goal_visitors signup_report /\
            snd row <= get_default (Some 9) 0)
         (interval_lines signup_report).
Proof.
  split; [split; [vm_compute; reflexivity | reflexivity] |].
  apply (interval_visitors_below_site signup_breakdown signup_aggregate Day
           (mkdate 2024 6 1) (mkdate 2024 6 2) "/" ["signup"] signup_report
           (Some 9)).
  - vm_compute; reflexivity.
  - reflexivity.
Defined.

Lemma one_line_per_interval_witness :
  main overlap_breakdown overlap_aggregate Week
       (mkdate 2024 6 2) (mkdate 2024 6 8) "/" ["A"; "B"] =
  Return overlap_report /\
  exists intervals,
    build_intervals Week (mkdate 2024 6 2) (mkdate 2024 6 8) = Return intervals /\
    List.length (interval_lines overlap_report) = List.length intervals /\
    List.length (interval_rates overlap_report) = List.length intervals /\
    List.length (goal_lines overlap_report) =
    List.length (goal_visitor_map overlap_report).
Proof.
  split; [vm_compute; reflexivity |].
  apply (one_line_per_interval overlap_breakdown overlap_aggregate Week
           (mkdate 2024 6 2) (mkdate 2024 6 8) "/" ["A"; "B"] overlap_report).
  vm_compute; reflexivity.
Defined.


Local Open Scope Z_scope.

(** X20.  When the site aggregate of the whole range comes without a
    value, the total of Section 1 is capped at 0: it is not positive, every
    percentage of Section 4 is 0, and no interval of Section 3 shows a
    positive number of visitors. *)
Theorem missing_site_aggregate_zeroes_the_total
    (breakdown : window -> list metric -> option string -> outcome (list item))
    (aggregate : window -> option string -> option string -> outcome (option Z))
    (interval : granularity) (start_date end_date : date)
    (page_path : string) (goals : list string) (r : report) :
  main breakdown aggregate interval start_date end_date page_path goals =
  Return r ->
  aggregate (start_date, end_date) None None = Return None ->
  total_goal_visitors r <= 0 /\
  Forall (fun row : Q * Z * string => fst (fst row) = 0%Q) (goal_lines r) /\
  Forall (fun row : Z * Z => snd row <= 0) (interval_lines r).
Proof.
  intros H Hsite.
  pose proof (interval_visitors_below_site_aux _ _ _ _ _ _ _ _ _ H Hsite) as Hiv.
  apply main_Return in H
    as (s1 & s5 & ivs & ivs6 & _ & _ & H1 & _ & _ & _ & _ & _ & _ & Hr).
  apply section1_Return in H1 as (items & site' & _ & Ha & Ht & _).
  rewrite Hsite in Ha. injection Ha as <-. cbn [get_default] in Ht.
  assert (Htot : total_goal_visitors r <= 0)
    by (rewrite Hr; cbn [total_goal_visitors]; lia).
  split; [exact Htot | split].
  - rewrite Hr. cbn [goal_lines]. unfold section4.
    apply Forall_forall. intros row Hrow.
    apply in_map_iff in Hrow as (gc & <- & _). cbn [fst snd].
    unfold percent. replace (0 <? fst s1) with false; [reflexivity |].
    symmetry. apply Z.ltb_ge. rewrite Hr in Htot. exact Htot.
  - eapply Forall_impl; [| exact Hiv]. cbn [get_default]. intros row [_ Hrow].
    exact Hrow.
Qed.

Lemma missing_site_aggregate_zeroes_the_total_witness :
  main signup_breakdown (fun _ _ _ => Return None) Day
       (mkdate 2024 6 1) (mkdate 2024 6 1) "/" ["signup"%string] =
  Return (mkreport 0 [("signup"%string, 10)] 12 [(12, 0)]
            [(0%Q, 10, "signup"%string)] (0, 0, 0%Q) [(0, 0, 0%Q)]) /\
  total_goal_visitors
    (mkreport 0 [("signup"%string, 10)] 12 [(12, 0)]
       [(0%Q, 10, "signup"%string)] (0, 0, 0%Q) [(0, 0, 0%Q)]) <= 0.
Proof.
  split; [vm_compute; reflexivity |].
  apply (missing_site_aggregate_zeroes_the_total signup_breakdown
           (fun _ _ _ => Return None) Day (mkdate 2024 6 1) (mkdate 2024 6 1)
           "/"%string ["signup"%string]).
  - vm_compute; reflexivity.
  - reflexivity.
Defined.
